(** * gobro, package parse: a shallow embedding of parse.go

    The parser of Bro logs: header discovery ([ParseAllFields]), resolution
    of field names to column indices ([GetIndexOfFields], [getIndex]) and the
    row scanning loop that pushes rows into the channel [p.Row]
    ([BufferRow]).

    Conventions of the embedding.
    - A Go [string] is a sequence of bytes: Rocq's [string] (a list of
      [ascii]).  Indexing and slicing are by byte, as in Go.
    - A file is the sequence of lines that [bufio.Scanner] yields for it
      (split at newlines, the line terminator removed, no line over the
      scanner's token limit).  The file system maps a path to its file, or to
      nothing when the path cannot be opened.
    - A run-time panic (index or slice bounds out of range, send on or close
      of a closed channel) is an outcome of its own, [Panic]; it carries the
      state reached when it happened.
    - A channel is its history: the rows sent so far, in order, and whether
      it has been closed.  The consumer is taken to drain the channel, so a
      send never blocks for want of room.
    - [fmt.Println] appends one line to the standard output of the world. *)

From Stdlib Require Import String Ascii List ZArith Bool Lia.
Import ListNotations.

Local Open Scope string_scope.
Local Open Scope list_scope.

(** ** Go values *)

Module Go.

(** The errors the package builds: [errors.New msg] and the [*PathError] of
    a failed [os.Open]. *)
Inductive error : Type :=
| errors_New (msg : string)
| PathError (op path : string).

Definition Error (e : error) : string :=
  match e with
  | errors_New msg => msg
  | PathError op path => op ++ " " ++ path ++ ": no such file or directory"
  end.

Inductive runtime_error : Type :=
| IndexOutOfRange
| SliceBoundsOutOfRange
| SendOnClosedChannel
| CloseOfClosedChannel.

(** The outcome of an expression that may panic. *)
Inductive res (A : Type) : Type :=
| Val (a : A)
| Panic (r : runtime_error).

Arguments Val {A} a.
Arguments Panic {A} r.

Definition tab : ascii := "009"%char.
Definition hash : ascii := "#"%char.

(** [s[i]] *)
Definition byte_at (s : string) (i : nat) : res ascii :=
  match String.get i s with
  | Some c => Val c
  | None => Panic IndexOutOfRange
  end.

(** [s[lo:hi]] *)
Definition slice (s : string) (lo hi : nat) : res string :=
  if (lo <=? hi)%nat && (hi <=? String.length s)%nat
  then Val (String.substring lo (hi - lo) s)
  else Panic SliceBoundsOutOfRange.

(** [s[lo:]] *)
Definition slice_from (s : string) (lo : nat) : res string :=
  if (lo <=? String.length s)%nat
  then Val (String.substring lo (String.length s - lo) s)
  else Panic SliceBoundsOutOfRange.

(** [entry[i]] for a slice of strings and a Go [int]. *)
Definition elem_at (entry : list string) (i : Z) : res string :=
  if (i <? 0)%Z then Panic IndexOutOfRange
  else match nth_error entry (Z.to_nat i) with
       | Some v => Val v
       | None => Panic IndexOutOfRange
       end.

(** [strings.Split(s, sep)] for a separator of one byte, the only kind the
    package passes.  The result is never empty: a string without the
    separator, the empty string included, is returned whole. *)
Fixpoint strings_Split (s : string) (sep : ascii) : list string :=
  match s with
  | EmptyString => [EmptyString]
  | String c s' =>
      if Ascii.eqb c sep then EmptyString :: strings_Split s' sep
      else match strings_Split s' sep with
           | [] => [String c EmptyString]
           | x :: xs => String c x :: xs
           end
  end.

(** A channel of rows, [chan []string]: capacity, history of the rows sent
    and the closed flag. *)
Record chan : Type := Chan {
  cap : Z;
  sent : list (list string);
  closed : bool
}.

Definition make_chan (bufferSize : Z) : chan :=
  {| cap := bufferSize; sent := []; closed := false |}.

(** [c <- row] *)
Definition chan_send (c : chan) (row : list string) : res chan :=
  if closed c then Panic SendOnClosedChannel
  else Val {| cap := cap c; sent := sent c ++ [row]; closed := false |}.

(** [close(c)] *)
Definition chan_close (c : chan) : res chan :=
  if closed c then Panic CloseOfClosedChannel
  else Val {| cap := cap c; sent := sent c; closed := true |}.

(** The file system: the lines of the file at a path, if it can be opened. *)
Definition filesystem : Type := string -> option (list string).

(** [os.Open(path)]: the file and a nil error, or no file and the error. *)
Definition os_Open (fs : filesystem) (path : string)
  : list string * option error :=
  match fs path with
  | Some lines => (lines, None)
  | None => ([], Some (PathError "open" path))
  end.

End Go.

Import Go.

(** ** The parser *)

(** [type Parser struct].  [fields] is [None] for the nil slice, which
    [BufferRow] and [GetIndexOfFields] test for; [fieldsIndex] is only ranged
    over and appended to, so nil and empty coincide there.  [Row] is [None]
    for the nil channel. *)
Record Parser : Type := mkParser {
  allFields : bool;
  fields : option (list string);
  fieldsIndex : list Z;
  filepath : string;
  Row : option chan
}.

Definition set_fields (p : Parser) (fs : option (list string)) : Parser :=
  {| allFields := allFields p; fields := fs; fieldsIndex := fieldsIndex p;
     filepath := filepath p; Row := Row p |}.

Definition set_fieldsIndex (p : Parser) (ix : list Z) : Parser :=
  {| allFields := allFields p; fields := fields p; fieldsIndex := ix;
     filepath := filepath p; Row := Row p |}.

Definition set_Row (p : Parser) (c : option chan) : Parser :=
  {| allFields := allFields p; fields := fields p;
     fieldsIndex := fieldsIndex p; filepath := filepath p; Row := c |}.

(** [NewParser(path, allFields)] *)
Definition NewParser (fs : filesystem) (path : string) (all : bool)
  : option Parser * option error :=
  match fs path with
  | None => (None, Some (errors_New "File path does not exist"))
  | Some _ =>
      (Some {| allFields := all; fields := None; fieldsIndex := [];
               filepath := path; Row := None |}, None)
  end.

(** [p.SetFields(fields)] *)
Definition SetFields (p : Parser) (fs : option (list string)) : Parser :=
  set_fields p fs.

(** [p.CreateBuffer(bufferSize)], for a size that [make] accepts (it panics
    on a negative one). *)
Definition CreateBuffer (p : Parser) (bufferSize : Z) : Parser :=
  set_Row p (Some (make_chan bufferSize)).

(** [getIndex(allFields, configField)]: the position of the first element
    equal to [configField], or [-1] and an error. *)
Fixpoint getIndex_from (i : Z) (all : list string) (configField : string)
  : Z * option error :=
  match all with
  | [] =>
      ((-1)%Z,
       Some (errors_New
         ("Couldn't match field defined in config with one in bro log, field is: "
          ++ configField)))
  | field :: rest =>
      if String.eqb field configField then (i, None)
      else getIndex_from (i + 1) rest configField
  end.

Definition getIndex (all : list string) (configField : string)
  : Z * option error :=
  getIndex_from 0 all configField.

(** The loop of [ParseAllFields] over the lines of the opened file. *)
Fixpoint ParseAllFields_scan (lines : list string)
  : res (list string * option error) :=
  match lines with
  | [] => Val ([], None)
  | line :: rest =>
      match slice line 0 7 with
      | Panic r => Panic r
      | Val prefix =>
          if String.eqb prefix "#fields" then
            match slice_from line 8 with
            | Panic r => Panic r
            | Val names =>
                if String.eqb names ""
                then Val ([], Some (errors_New "Fields row is malformed"))
                else Val (strings_Split names tab, None)
            end
          else ParseAllFields_scan rest
      end
  end.

(** [p.ParseAllFields()] *)
Definition ParseAllFields (fs : filesystem) (p : Parser)
  : res (list string * option error) :=
  let (file, fileErr) := os_Open fs (filepath p) in
  match fileErr with
  | Some e => Val ([], Some e)
  | None => ParseAllFields_scan file
  end.

(** ** The world and its monad

    [BufferRow] and [GetIndexOfFields] work on the parser behind the pointer
    [p] and print to the standard output.  A computation takes the world to
    an outcome and the world it leaves; after a panic that is the world at
    the panic. *)

Record world : Type := World {
  parser : Parser;
  stdout : list string
}.

Definition M (A : Type) : Type := world -> res A * world.

Definition ret {A : Type} (a : A) : M A := fun w => (Val a, w).

Definition bind {A B : Type} (m : M A) (k : A -> M B) : M B :=
  fun w =>
    match m w with
    | (Val a, w') => k a w'
    | (Panic r, w') => (Panic r, w')
    end.

Notation "x <- m ;; k" := (bind m (fun x => k))
  (at level 61, m at next level, right associativity).
Notation "m ;;; k" := (bind m (fun _ => k))
  (at level 61, right associativity).

Definition lift {A : Type} (r : res A) : M A := fun w => (r, w).

Definition get_p : M Parser := fun w => (Val (parser w), w).

Definition put_p (p : Parser) : M unit :=
  fun w => (Val tt, {| parser := p; stdout := stdout w |}).

Definition fmt_Println (s : string) : M unit :=
  fun w => (Val tt, {| parser := parser w; stdout := stdout w ++ [s] |}).

Fixpoint for_each {A : Type} (body : A -> M unit) (xs : list A) : M unit :=
  match xs with
  | [] => ret tt
  | x :: rest => body x ;;; for_each body rest
  end.

(** The elements of a slice that may be nil. *)
Definition elems (s : option (list string)) : list string :=
  match s with
  | Some l => l
  | None => []
  end.

(** ** Index resolution *)

(** The loop of [GetIndexOfFields] over [p.fields]: each index found is
    appended to [p.fieldsIndex] at once; the first name without a match
    returns its error. *)
Fixpoint GetIndexOfFields_loop (all sel : list string) : M (option error) :=
  match sel with
  | [] => ret None
  | configField :: rest =>
      let (index, err) := getIndex all configField in
      match err with
      | Some e => ret (Some e)
      | None =>
          p <- get_p ;;
          put_p (set_fieldsIndex p (fieldsIndex p ++ [index])) ;;;
          GetIndexOfFields_loop all rest
      end
  end.

(** [p.GetIndexOfFields()] *)
Definition GetIndexOfFields (fs : filesystem) : M (option error) :=
  p <- get_p ;;
  r <- lift (ParseAllFields fs p) ;;
  let (all, err) := r in
  match err with
  | Some e => ret (Some e)
  | None =>
      match fields p with
      | None =>
          ret (Some (errors_New "No specific fields defined for parsing"))
      | Some sel => GetIndexOfFields_loop all sel
      end
  end.

(** ** The row stream *)

(** [type Parse func([]string, []string) ([]string, error)], a pure function
    of the field names and the extracted values: it neither keeps nor changes
    the slices it is given.  [BufferRow] takes its [Parse] functions as
    variadic arguments and calls the first only; a nil function value, whose
    call would panic, is not among the values of this type. *)
Definition Parse : Type :=
  list string -> list string -> list string * option error.

(** [p.Row <- row].  A send on a nil channel would block for ever;
    [BufferRow] returns before its loop when [p.Row] is nil, so the loop
    never meets that case and the model leaves the world as it is. *)
Definition send_Row (row : list string) : M unit :=
  p <- get_p ;;
  match Row p with
  | None => ret tt
  | Some c =>
      c' <- lift (chan_send c row) ;;
      put_p (set_Row p (Some c'))
  end.

(** [close(p.Row)], reached only with a channel that is not nil. *)
Definition close_Row : M unit :=
  p <- get_p ;;
  match Row p with
  | None => ret tt
  | Some c =>
      c' <- lift (chan_close c) ;;
      put_p (set_Row p (Some c'))
  end.

(** The loop that builds [parsedEntry]: [entry[fieldIndex]] for each resolved
    index, in order. *)
Fixpoint project (entry : list string) (ix : list Z) : res (list string) :=
  match ix with
  | [] => Val []
  | fieldIndex :: rest =>
      match elem_at entry fieldIndex with
      | Panic r => Panic r
      | Val v =>
          match project entry rest with
          | Panic r => Panic r
          | Val vs => Val (v :: vs)
          end
      end
  end.

(** The block that sends a row, the same in both modes: the raw row when no
    [Parse] function was passed or when the function returns an error, the
    row it returns otherwise. *)
Definition push_row (parseFunc : list Parse) (flds row : list string)
  : M unit :=
  match parseFunc with
  | [] => send_Row row
  | f :: _ =>
      let (modifiedParsedEntry, err) := f flds row in
      match err with
      | Some _ => send_Row row
      | None => send_Row modifiedParsedEntry
      end
  end.

(** The body of the scanning loop of [BufferRow] for one line. *)
Definition BufferRow_line (parseFunc : list Parse) (line : string) : M unit :=
  c0 <- lift (byte_at line 0) ;;
  if Ascii.eqb c0 hash then ret tt
  else
    rest <- lift (slice_from line 1) ;;
    if String.eqb rest "" then ret tt
    else
      let entry := strings_Split line tab in
      p <- get_p ;;
      if allFields p then
        if negb (length (elems (fields p)) =? length entry)%nat then ret tt
        else push_row parseFunc (elems (fields p)) entry
      else
        parsedEntry <- lift (project entry (fieldsIndex p)) ;;
        push_row parseFunc (elems (fields p)) parsedEntry.

(** [p.BufferRow(parseFunc...)] *)
Definition BufferRow (fs : filesystem) (parseFunc : list Parse) : M unit :=
  p <- get_p ;;
  match Row p with
  | None => fmt_Println "Initialize nil channel, via CreateBuffer()"
  | Some _ =>
      match fields p with
      | None => fmt_Println "No fields parsed"
      | Some _ =>
          err <- (if allFields p then ret None else GetIndexOfFields fs) ;;
          match err with
          | Some e => fmt_Println (Error e)
          | None =>
              let (file, fileErr) := os_Open fs (filepath p) in
              match fileErr with
              | Some e => fmt_Println (Error e)
              | None =>
                  for_each (BufferRow_line parseFunc) file ;;;
                  close_Row
              end
          end
      end
  end.

(** ** Observations, scenarios and the predicates of the statements *)

(** The rows sent on the channel of a parser, and whether it is closed. *)
Definition emitted (p : Parser) : list (list string) :=
  match Row p with
  | Some c => sent c
  | None => []
  end.

Definition is_closed (p : Parser) : bool :=
  match Row p with
  | Some c => closed c
  | None => false
  end.

(** A line of tab-separated values. *)
Definition tsv (values : list string) : string :=
  String.concat (String tab EmptyString) values.

Definition one_file (path : string) (lines : list string) : filesystem :=
  fun q => if String.eqb q path then Some lines else None.

Definition start (p : Parser) : world := {| parser := p; stdout := [] |}.

(** The log of the end-to-end scenarios. *)
Definition abc_log : list string :=
  [ ("#fields" ++ String tab (tsv ["a"; "b"; "c"]))%string;
    tsv ["1"; "2"; "3"];
    tsv ["4"; "5"; "6"] ].

Definition selected (path : string) (sel : list string) (size : Z) : Parser :=
  {| allFields := false; fields := Some sel; fieldsIndex := [];
     filepath := path; Row := Some (make_chan size) |}.

(** The error of [getIndex] for a name without a match. *)
Definition NotFound (configField : string) : error :=
  errors_New
    ("Couldn't match field defined in config with one in bro log, field is: "
     ++ configField).

(** The log with the header [#fields a b] and one row. *)
Definition ab_log : list string :=
  [ ("#fields" ++ String tab (tsv ["a"; "b"]))%string; tsv ["1"; "2"] ].

(** The log of the scenarios with an empty line between its two rows. *)
Definition abc_log_blank : list string :=
  [ ("#fields" ++ String tab (tsv ["a"; "b"; "c"]))%string;
    tsv ["1"; "2"; "3"];
    "";
    tsv ["4"; "5"; "6"] ].

(** A parser in selected-fields mode on which [SetFields] was never called. *)
Definition unset (path : string) (size : Z) : Parser :=
  {| allFields := false; fields := None; fieldsIndex := [];
     filepath := path; Row := Some (make_chan size) |}.

(** The file system in which no path can be opened. *)
Definition no_file : filesystem := fun _ => None.

(** The row that the sending block of [BufferRow] puts on the channel for
    the extraction [row]. *)
Definition row_sent (parseFunc : list Parse) (flds row : list string)
  : list string :=
  match parseFunc with
  | [] => row
  | f :: _ =>
      let (modifiedParsedEntry, err) := f flds row in
      match err with
      | Some _ => row
      | None => modifiedParsedEntry
      end
  end.

(** An index that [entry[i]] accepts. *)
Definition in_range (entry : list string) (i : Z) : Prop :=
  (0 <= i < Z.of_nat (length entry))%Z.

(** What [BufferRow] leaves alone while it scans: every field of the parser
    but the channel. *)
Definition config (p : Parser) : bool * option (list string) * list Z * string :=
  (allFields p, fields p, fieldsIndex p, filepath p).

(** A parser in all-fields mode with the field names [names] and a fresh
    channel. *)
Definition all_of (path : string) (names : option (list string)) (size : Z)
  : Parser :=
  {| allFields := true; fields := names; fieldsIndex := [];
     filepath := path; Row := Some (make_chan size) |}.

(** ** The rest of the package *)

(** [p.Fields()] *)
Definition Fields (p : Parser) : option (list string) := fields p.

(** [strings.Replace(s, old, new, -1)] for [old] and [new] of one byte each:
    every occurrence is replaced. *)
Fixpoint strings_Replace (s : string) (old new : ascii) : string :=
  match s with
  | EmptyString => EmptyString
  | String c s' =>
      String (if Ascii.eqb c old then new else c) (strings_Replace s' old new)
  end.

Definition dot : ascii := "."%char.
Definition underscore : ascii := "_"%char.

(** [p.FieldsToUnderscore()]: a new slice, built by [append] from nil, and a
    nil error; or nil and an error when [p.fields] is nil. *)
Definition FieldsToUnderscore (p : Parser) : list string * option error :=
  match fields p with
  | None => ([], Some (errors_New "No fields to replace"))
  | Some names =>
      (map (fun field => strings_Replace field dot underscore) names, None)
  end.

(** What the successive calls of [file.Read(buf)] return for an opened file:
    chunks of bytes with a nil error, then [0, io.EOF], or an error of the
    system. *)
Inductive reads : Type :=
| EOF
| ReadError (e : error)
| Data (chunk : string) (rest : reads).

(** The bytes of a file that is read to its end. *)
Fixpoint content (r : reads) : string :=
  match r with
  | EOF => EmptyString
  | ReadError _ => EmptyString
  | Data chunk rest => (chunk ++ content rest)%string
  end.

(** The disk: what opening and reading the file at a path gives. *)
Definition disk : Type := string -> option reads.

Definition newline : ascii := "010"%char.

(** [bytes.Count(s, sep)] for a separator of one byte. *)
Fixpoint bytes_Count (s : string) (sep : ascii) : Z :=
  match s with
  | EmptyString => 0
  | String c s' =>
      ((if Ascii.eqb c sep then 1 else 0) + bytes_Count s' sep)%Z
  end.

(** The loop of [CountLines]: the count of every chunk is added before the
    error of its read is looked at. *)
Fixpoint CountLines_loop (r : reads) (count : Z) : Z * option error :=
  match r with
  | EOF => (count, None)
  | ReadError e => (count, Some e)
  | Data chunk rest =>
      CountLines_loop rest (count + bytes_Count chunk newline)
  end.

(** [p.CountLines()] *)
Definition CountLines (d : disk) (p : Parser) : Z * option error :=
  match d (filepath p) with
  | None => ((-1)%Z, Some (PathError "open" (filepath p)))
  | Some r => CountLines_loop r 0
  end.

(** [p.AutoCreateBuffer()]: the parser it leaves and the error it returns. *)
Definition AutoCreateBuffer (d : disk) (p : Parser) : Parser * option error :=
  let (lineNum, err) := CountLines d p in
  match err with
  | Some e => (p, Some e)
  | None => (CreateBuffer p lineNum, None)
  end.

(** ** Specifications the code is compared with *)

(** The value of a row under a column name: the value at the position of the
    first column of the header that has the name. *)
Fixpoint column (header entry : list string) (name : string)
  : option string :=
  match header, entry with
  | h :: header', v :: entry' =>
      if String.eqb h name then Some v else column header' entry' name
  | _, _ => None
  end.

(** A line that the loop of [BufferRow] takes for a row: its first byte is
    not [#] and something follows it. *)
Definition is_row (line : string) : bool :=
  match line with
  | EmptyString => false
  | String c tail =>
      negb (Ascii.eqb c hash) && negb (String.eqb tail "")
  end.

(** The rows of a file, each split at its tabs. *)
Definition rows_of (lines : list string) : list (list string) :=
  map (fun line => strings_Split line tab) (filter is_row lines).

(** The number of tabs of a string. *)
Definition tabs (s : string) : nat := Z.to_nat (bytes_Count s tab).

(** The line that declares the fields: the prefix, one byte that
    [ParseAllFields] never looks at (a tab in a Bro log), and the names. *)
Definition directive (c : ascii) (names : string) : string :=
  ("#fields" ++ String c names)%string.

(** A line that [ParseAllFields] passes over: long enough for the prefix to
    be sliced, and with another prefix. *)
Definition passed_over (line : string) : Prop :=
  (7 <= String.length line)%nat /\ String.substring 0 7 line <> "#fields".

(** The extraction that the selection [sel] asks for from a row, by name. *)
Definition select_columns (header sel entry : list string) : list string :=
  map (fun name => match column header entry name with
                   | Some v => v
                   | None => EmptyString
                   end) sel.

(** The world after the rows [rows] have been sent on the open channel [c]
    of its parser. *)
Definition with_sent (w : world) (c : chan) (rows : list (list string))
  : world :=
  {| parser := set_Row (parser w)
                 (Some {| cap := cap c; sent := sent c ++ rows;
                          closed := false |});
     stdout := stdout w |}.

(** The test of all-fields mode on a row: as many values as field names. *)
Definition fits (names entry : list string) : bool :=
  (length names =? length entry)%nat.

(** What every operation of the package keeps of a world: the mode, the
    field names and the path are as before; the resolved indices, the rows
    sent and the lines printed are as before with more at their end; and a
    channel is there after exactly when it was there before. *)
Definition extends (w w' : world) : Prop :=
  allFields (parser w') = allFields (parser w) /\
  fields (parser w') = fields (parser w) /\
  filepath (parser w') = filepath (parser w) /\
  (exists ix, fieldsIndex (parser w') = fieldsIndex (parser w) ++ ix) /\
  (exists rows, emitted (parser w') = emitted (parser w) ++ rows) /\
  (exists msgs, stdout w' = stdout w ++ msgs) /\
  (Row (parser w') = None <-> Row (parser w) = None).

(** How a sequence of reads ends: [None] for [io.EOF]. *)
Fixpoint final (r : reads) : option error :=
  match r with
  | EOF => None
  | ReadError e => Some e
  | Data _ rest => final rest
  end.

(** [dropCR] of [bufio]: a line without its carriage return, if it ends with
    one. *)
Fixpoint dropCR (s : string) : string :=
  match s with
  | EmptyString => EmptyString
  | String c EmptyString =>
      if Ascii.eqb c "013"%char then EmptyString else String c EmptyString
  | String c s' => String c (dropCR s')
  end.

(** The lines that a [bufio.Scanner] with its default split function
    [ScanLines] yields for the bytes of a file: the pieces between the
    newline bytes, the last one only if it is not empty, each without its
    carriage return. *)
Definition ScanLines (data : string) : list string :=
  let parts := strings_Split data newline in
  map dropCR (if String.eqb (last parts EmptyString) EmptyString
              then removelast parts
              else parts).

(** A run sent at most [n] rows more on the channel [c], and kept its
    capacity. *)
Definition sent_at_most (n : nat) (c : chan) (w' : world) : Prop :=
  exists c' rows,
    Row (parser w') = Some c' /\ cap c' = cap c /\
    sent c' = sent c ++ rows /\ (length rows <= n)%nat.

(** The parser that [NewParser], [SetFields] and [CreateBuffer] build is the
    one the scenarios start from. *)
Lemma selected_built (fs : filesystem) (path : string) (sel : list string)
    (size : Z) (lines : list string) :
  fs path = Some lines ->
  exists p0,
    NewParser fs path false = (Some p0, None) /\
    CreateBuffer (SetFields p0 (Some sel)) size = selected path sel size.
Proof.
  intros Hopen. unfold NewParser. rewrite Hopen.
  eexists. split; [reflexivity | reflexivity].
Qed.

(** ** Scenario: two columns out of three *)

(** C1.  On the log with the header [#fields a b c] and the rows [1 2 3] and
    [4 5 6], a parser in selected-fields mode with the selection [a, c] and
    a fresh channel sends the row [1, 3], then the row [4, 6], and closes the
    channel; nothing is printed and the run returns. *)
Theorem C1_select_a_c (fs : filesystem) (path : string) (size : Z) :
  fs path = Some abc_log ->
  BufferRow fs [] (start (selected path ["a"; "c"] size)) =
  (Val tt,
   {| parser :=
        {| allFields := false; fields := Some ["a"; "c"];
           fieldsIndex := [0%Z; 2%Z]; filepath := path;
           Row := Some {| cap := size;
                          sent := [["1"; "3"]; ["4"; "6"]];
                          closed := true |} |};
      stdout := [] |}).
Proof.
  intros Hopen.
  unfold BufferRow, GetIndexOfFields, ParseAllFields, os_Open, bind, get_p,
    lift, start, selected; simpl.
  rewrite Hopen. vm_compute. reflexivity.
Qed.

Lemma C1_select_a_c_witness :
  one_file "conn.log" abc_log "conn.log" = Some abc_log /\
  emitted (parser (snd (BufferRow (one_file "conn.log" abc_log) []
                          (start (selected "conn.log" ["a"; "c"] 2))))) =
  [["1"; "3"]; ["4"; "6"]].
Proof.
  split; [reflexivity |].
  rewrite (C1_select_a_c (one_file "conn.log" abc_log) "conn.log" 2);
    reflexivity.
Defined.

(** ** Index resolution: the name that is not in the header *)

Lemma getIndex_from_absent (i : Z) (all : list string) (z : string) :
  ~ In z all -> getIndex_from i all z = ((-1)%Z, Some (NotFound z)).
Proof.
  revert i. induction all as [| field rest IH]; intros i Hnot; simpl.
  - reflexivity.
  - destruct (String.eqb_spec field z) as [Heq | Hne].
    + exfalso. apply Hnot. left. exact Heq.
    + apply IH. intros Hin. apply Hnot. right. exact Hin.
Qed.

Lemma getIndex_from_present (i : Z) (all : list string) (z : string) :
  In z all ->
  exists k, getIndex_from i all z = (k, None) /\
            (i <= k < i + Z.of_nat (length all))%Z /\
            nth_error all (Z.to_nat (k - i)) = Some z.
Proof.
  revert i. induction all as [| field rest IH]; intros i Hin.
  - destruct Hin.
  - simpl getIndex_from. destruct (String.eqb_spec field z) as [Heq | Hne].
    + exists i. subst field. split; [reflexivity |].
      split; [simpl length; lia |].
      replace (i - i)%Z with 0%Z by lia. reflexivity.
    + destruct Hin as [Heq | Hin]; [contradiction |].
      destruct (IH (i + 1)%Z Hin) as (k & Hk & Hrange & Hnth).
      exists k. split; [exact Hk |].
      split; [simpl length; lia |].
      replace (Z.to_nat (k - i)) with (S (Z.to_nat (k - (i + 1)))) by lia.
      exact Hnth.
Qed.

(** The loop stops at the first name without a match with the error that
    names it; the indices of the names before it have been appended to
    [p.fieldsIndex] by then and stay there. *)
Lemma GetIndexOfFields_loop_NotFound (all pre : list string) (z : string)
    (post : list string) (w : world) :
  Forall (fun x => In x all) pre ->
  ~ In z all ->
  exists ix,
    length ix = length pre /\
    GetIndexOfFields_loop all (pre ++ z :: post) w =
    (Val (Some (NotFound z)),
     {| parser := set_fieldsIndex (parser w) (fieldsIndex (parser w) ++ ix);
        stdout := stdout w |}).
Proof.
  intros Hpre Hz. revert w.
  induction Hpre as [| x pre Hx Hpre IH]; intros w.
  - exists []. split; [reflexivity |].
    simpl. unfold getIndex. rewrite (getIndex_from_absent 0 all z Hz).
    unfold ret. rewrite app_nil_r. destruct w as [[a f ix path r] out].
    reflexivity.
  - destruct (getIndex_from_present 0 all x Hx) as (k & Hk & _ & _).
    simpl. unfold getIndex. rewrite Hk.
    unfold bind, get_p, put_p. simpl.
    destruct (IH {| parser :=
                      set_fieldsIndex (parser w) (fieldsIndex (parser w) ++ [k]);
                    stdout := stdout w |}) as (ix & Hlen & Hrun).
    exists (k :: ix). split; [simpl; rewrite Hlen; reflexivity |].
    rewrite Hrun. simpl. unfold set_fieldsIndex. simpl.
    rewrite <- app_assoc. reflexivity.
Qed.

(** With every name in the header the loop returns no error and has appended
    one index per name, each the position of its name in the header. *)
Lemma GetIndexOfFields_loop_found (all sel : list string) (w : world) :
  Forall (fun x => In x all) sel ->
  exists ix,
    Forall2 (fun i x => (0 <= i)%Z /\ nth_error all (Z.to_nat i) = Some x)
            ix sel /\
    GetIndexOfFields_loop all sel w =
    (Val None,
     {| parser := set_fieldsIndex (parser w) (fieldsIndex (parser w) ++ ix);
        stdout := stdout w |}).
Proof.
  intros Hsel. revert w.
  induction Hsel as [| x sel Hx Hsel IH]; intros w.
  - exists []. split; [constructor |].
    simpl. unfold ret. rewrite app_nil_r.
    destruct w as [[a f ix path r] out]. reflexivity.
  - destruct (getIndex_from_present 0 all x Hx) as (k & Hk & Hrange & Hnth).
    simpl. unfold getIndex. rewrite Hk.
    unfold bind, get_p, put_p. simpl.
    destruct (IH {| parser :=
                      set_fieldsIndex (parser w) (fieldsIndex (parser w) ++ [k]);
                    stdout := stdout w |}) as (ix & Hall & Hrun).
    exists (k :: ix). split.
    + constructor; [| exact Hall].
      split; [lia |]. rewrite Z.sub_0_r in Hnth. exact Hnth.
    + rewrite Hrun. simpl. unfold set_fieldsIndex. simpl.
      rewrite <- app_assoc. reflexivity.
Qed.

(** C2.  With the header [a b] and the selection [a, z], [GetIndexOfFields]
    returns the error that names [z], and [BufferRow] prints it and returns
    with no row sent; but the index of [a] has been appended to
    [p.fieldsIndex], which was empty before the call. *)
Theorem C2_partial_indices_left :
  let fs := one_file "conn.log" ab_log in
  let p := selected "conn.log" ["a"; "z"] 1 in
  GetIndexOfFields fs (start p) =
    (Val (Some (NotFound "z")),
     {| parser := set_fieldsIndex p [0%Z]; stdout := [] |}) /\
  BufferRow fs [] (start p) =
    (Val tt,
     {| parser := set_fieldsIndex p [0%Z];
        stdout := [Error (NotFound "z")] |}) /\
  fieldsIndex p = [] /\
  Error (NotFound "z") =
    "Couldn't match field defined in config with one in bro log, field is: z".
Proof.
  vm_compute. repeat split; reflexivity.
Qed.

(** ** The scanning loop *)

Lemma substring_whole (s : string) : String.substring 0 (String.length s) s = s.
Proof.
  induction s as [| c s IH]; simpl; [reflexivity | rewrite IH; reflexivity].
Qed.

Lemma slice_from_1 (c : ascii) (s : string) :
  slice_from (String c s) 1 = Val s.
Proof.
  unfold slice_from. simpl. rewrite Nat.sub_0_r, substring_whole. reflexivity.
Qed.

Lemma for_each_app {A : Type} (body : A -> M unit) (xs ys : list A) (w : world) :
  for_each body (xs ++ ys) w =
  (for_each body xs ;;; for_each body ys) w.
Proof.
  revert w. induction xs as [| x xs IH]; intros w; simpl.
  - reflexivity.
  - unfold bind in *. destruct (body x w) as [[[] | r] w']; [apply IH | reflexivity].
Qed.

Lemma for_each_ext {A : Type} (f g : A -> M unit) (xs : list A) (w : world) :
  (forall x w', f x w' = g x w') ->
  for_each f xs w = for_each g xs w.
Proof.
  intros Hfg. revert w. induction xs as [| x xs IH]; intros w; simpl.
  - reflexivity.
  - unfold bind. rewrite Hfg. destruct (g x w) as [[[] | r] w']; [apply IH | reflexivity].
Qed.

Ltac break_match :=
  repeat match goal with
         | |- context [match ?x with _ => _ end] => destruct x eqn:?; simpl
         end.

(** A send changes the channel and nothing else. *)
Lemma send_Row_config (row : list string) (w : world) :
  config (parser (snd (send_Row row w))) = config (parser w) /\
  stdout (snd (send_Row row w)) = stdout w.
Proof.
  unfold send_Row, bind, get_p, lift, put_p, ret, chan_send, config; simpl.
  break_match; split; reflexivity.
Qed.

Lemma push_row_config (parseFunc : list Parse) (flds row : list string)
    (w : world) :
  config (parser (snd (push_row parseFunc flds row w))) = config (parser w) /\
  stdout (snd (push_row parseFunc flds row w)) = stdout w.
Proof.
  unfold push_row. destruct parseFunc as [| f rest].
  - apply send_Row_config.
  - destruct (f flds row) as [modified [e |]]; apply send_Row_config.
Qed.

(** The body of the loop leaves the mode, the field names, the indices and
    the path as they are, and prints nothing. *)
Lemma BufferRow_line_config (parseFunc : list Parse) (line : string)
    (w : world) :
  config (parser (snd (BufferRow_line parseFunc line w))) = config (parser w) /\
  stdout (snd (BufferRow_line parseFunc line w)) = stdout w.
Proof.
  unfold BufferRow_line, bind, lift, get_p, ret.
  destruct (byte_at line 0) as [c0 | r]; simpl; [| split; reflexivity].
  destruct (Ascii.eqb c0 hash); simpl; [split; reflexivity |].
  destruct (slice_from line 1) as [rest | r]; simpl; [| split; reflexivity].
  destruct (String.eqb rest ""); simpl; [split; reflexivity |].
  destruct (allFields (parser w)).
  - destruct (negb _); simpl; [split; reflexivity | apply push_row_config].
  - destruct (project _ _) as [parsedEntry | r]; simpl;
      [apply push_row_config | split; reflexivity].
Qed.

Lemma for_each_line_config (parseFunc : list Parse) (lines : list string)
    (w : world) :
  config (parser (snd (for_each (BufferRow_line parseFunc) lines w))) =
    config (parser w) /\
  stdout (snd (for_each (BufferRow_line parseFunc) lines w)) = stdout w.
Proof.
  revert w. induction lines as [| line rest IH]; intros w; simpl.
  - split; reflexivity.
  - unfold bind.
    pose proof (BufferRow_line_config parseFunc line w) as [Hc Hs].
    destruct (BufferRow_line parseFunc line w) as [[[] | r] w']; simpl in *.
    + destruct (IH w') as [Hc' Hs']. rewrite Hc', Hs'. split; assumption.
    + split; assumption.
Qed.

(** ** All-fields mode: the row whose length is not that of the field names *)

(** In all-fields mode the loop body does nothing on a line that is not
    empty and whose number of values is not the number of field names of
    the parser: the line is a comment, or has one byte, or fails the test
    on the lengths. *)
Lemma BufferRow_line_mismatch (parseFunc : list Parse) (line : string)
    (w : world) :
  allFields (parser w) = true ->
  line <> "" ->
  length (strings_Split line tab) <> length (elems (fields (parser w))) ->
  BufferRow_line parseFunc line w = (Val tt, w).
Proof.
  intros Hall Hline Hlen.
  destruct line as [| c s]; [contradiction |].
  unfold BufferRow_line, bind, lift, get_p, ret.
  change (byte_at (String c s) 0) with (@Val ascii c). cbv iota beta.
  destruct (Ascii.eqb c hash); [reflexivity |].
  rewrite slice_from_1. cbv iota beta.
  destruct (String.eqb s ""); [reflexivity |].
  rewrite Hall.
  destruct (Nat.eqb_spec (length (elems (fields (parser w))))
              (length (strings_Split (String c s) tab))) as [Heq | Hne].
  - exfalso. apply Hlen. symmetry. exact Heq.
  - reflexivity.
Qed.

Lemma for_each_skip_mismatch (parseFunc : list Parse)
    (pre : list string) (line : string) (post : list string) (w : world) :
  allFields (parser w) = true ->
  line <> "" ->
  length (strings_Split line tab) <> length (elems (fields (parser w))) ->
  for_each (BufferRow_line parseFunc) (pre ++ line :: post) w =
  for_each (BufferRow_line parseFunc) (pre ++ post) w.
Proof.
  intros Hall Hline Hlen.
  rewrite !for_each_app. unfold bind.
  pose proof (for_each_line_config parseFunc pre w) as [Hc _].
  destruct (for_each (BufferRow_line parseFunc) pre w) as [[[] | r] w'];
    [| reflexivity].
  simpl in Hc. unfold config in Hc. injection Hc as Ha Hf _ _.
  simpl. unfold bind.
  rewrite BufferRow_line_mismatch;
    [reflexivity | congruence | exact Hline | rewrite Hf; exact Hlen].
Qed.

(** C3, as the code has it.  In all-fields mode a line that is not empty and
    whose number of tab-separated values differs from the number of field
    names held by the parser ([p.fields], which the caller sets; the header
    of the file is not read in this mode) is skipped: the loop body leaves
    the world as it is, and the run on the file with the line gives the
    outcome, the rows and the closed channel of the run on the file without
    it. *)
Theorem C3_mismatched_line_skipped (fs1 fs2 : filesystem)
    (parseFunc : list Parse) (w : world)
    (pre : list string) (line : string) (post : list string) :
  allFields (parser w) = true ->
  line <> "" ->
  length (strings_Split line tab) <> length (elems (fields (parser w))) ->
  fs1 (filepath (parser w)) = Some (pre ++ line :: post) ->
  fs2 (filepath (parser w)) = Some (pre ++ post) ->
  BufferRow_line parseFunc line w = (Val tt, w) /\
  BufferRow fs1 parseFunc w = BufferRow fs2 parseFunc w.
Proof.
  intros Hall Hline Hlen Hfs1 Hfs2.
  split; [apply BufferRow_line_mismatch; assumption |].
  unfold BufferRow, bind, get_p. cbv iota beta.
  destruct (Row (parser w)) as [c |]; [| reflexivity].
  destruct (fields (parser w)) as [names |] eqn:Hnames; [| reflexivity].
  rewrite Hall. unfold ret, os_Open. cbv iota beta. rewrite Hfs1, Hfs2.
  cbv iota beta.
  rewrite (for_each_skip_mismatch parseFunc pre line post w);
    [reflexivity | exact Hall | exact Hline | rewrite Hnames; exact Hlen].
Qed.

Lemma C3_mismatched_line_skipped_witness :
  let p := all_of "conn.log" (Some ["a"; "b"]) 4 in
  let pre := [ ("#fields" ++ String tab (tsv ["a"; "b"]))%string;
               tsv ["1"; "2"] ] in
  let line := tsv ["7"; "8"; "9"] in
  let post := [ tsv ["3"; "4"] ] in
  emitted (parser (snd (BufferRow
    (one_file "conn.log" (pre ++ line :: post)) [] (start p)))) =
  [["1"; "2"]; ["3"; "4"]].
Proof.
  intros p pre line post.
  destruct (C3_mismatched_line_skipped
              (one_file "conn.log" (pre ++ line :: post))
              (one_file "conn.log" (pre ++ post))
              [] (start p) pre line post) as [_ Hrun].
  - reflexivity.
  - discriminate.
  - simpl. lia.
  - reflexivity.
  - reflexivity.
  - rewrite Hrun. reflexivity.
Defined.

(** The claim as the spec words it fails when the field names of the parser
    are not the header of the file: with the header [a b] and the field
    names [x], the line [10] has one value, not the two of the header, and is
    sent. *)
Lemma C3_counterexample :
  let fs := one_file "conn.log"
              [ ("#fields" ++ String tab (tsv ["a"; "b"]))%string; "10" ] in
  let p := all_of "conn.log" (Some ["x"]) 1 in
  ParseAllFields fs p = Val (["a"; "b"], None) /\
  length (strings_Split "10" tab) <> length ["a"; "b"] /\
  BufferRow fs [] (start p) =
    (Val tt,
     {| parser := set_Row p (Some {| cap := 1; sent := [["10"]];
                                     closed := true |});
        stdout := [] |}).
Proof.
  split; [vm_compute; reflexivity |].
  split; [simpl; discriminate | vm_compute; reflexivity].
Qed.

(** ** The [Parse] function that always fails *)

Lemma push_row_failing (f : Parse) (rest : list Parse)
    (flds row : list string) (w : world) :
  (forall a b, snd (f a b) <> None) ->
  push_row (f :: rest) flds row w = push_row [] flds row w.
Proof.
  intros Hfail. unfold push_row.
  specialize (Hfail flds row).
  destruct (f flds row) as [modified [e |]]; simpl in Hfail.
  - reflexivity.
  - contradiction.
Qed.

Lemma BufferRow_line_failing (f : Parse) (rest : list Parse) (line : string)
    (w : world) :
  (forall a b, snd (f a b) <> None) ->
  BufferRow_line (f :: rest) line w = BufferRow_line [] line w.
Proof.
  intros Hfail. unfold BufferRow_line, bind, lift, get_p, ret.
  destruct (byte_at line 0) as [c0 | r]; [| reflexivity].
  destruct (Ascii.eqb c0 hash); [reflexivity |].
  destruct (slice_from line 1) as [tail | r]; [| reflexivity].
  destruct (String.eqb tail ""); [reflexivity |].
  destruct (allFields (parser w)).
  - destruct (negb _); [reflexivity | apply push_row_failing; exact Hfail].
  - destruct (project _ _) as [parsedEntry | r];
      [apply push_row_failing; exact Hfail | reflexivity].
Qed.

(** C4.  A [Parse] function that returns an error on every input gives the
    run of [BufferRow] without a [Parse] function: the same outcome, the
    same rows on the channel in the same order, the same parser and the
    same output, whatever the file system and the world at the start. *)
Theorem C4_failing_transform (fs : filesystem) (f : Parse)
    (rest : list Parse) (w : world) :
  (forall flds row, snd (f flds row) <> None) ->
  BufferRow fs (f :: rest) w = BufferRow fs [] w.
Proof.
  intros Hfail. unfold BufferRow, bind, get_p. cbv iota beta.
  destruct (Row (parser w)) as [c |]; [| reflexivity].
  destruct (fields (parser w)) as [names |]; [| reflexivity].
  destruct (if allFields (parser w) then ret None else GetIndexOfFields fs)
    as [[[e |] | r] w1]; try reflexivity.
  destruct (os_Open fs (filepath (parser w))) as [file [e |]]; [reflexivity |].
  rewrite (for_each_ext (BufferRow_line (f :: rest)) (BufferRow_line []));
    [reflexivity |].
  intros line w'. apply BufferRow_line_failing. exact Hfail.
Qed.

Lemma C4_failing_transform_witness :
  let f : Parse := fun _ _ => ([], Some (errors_New "no")) in
  emitted (parser (snd (BufferRow (one_file "conn.log" abc_log) [f]
                          (start (selected "conn.log" ["a"; "c"] 2))))) =
  [["1"; "3"]; ["4"; "6"]].
Proof.
  intros f.
  rewrite (C4_failing_transform (one_file "conn.log" abc_log) f []
             (start (selected "conn.log" ["a"; "c"] 2))).
  - reflexivity.
  - intros flds row. simpl. discriminate.
Defined.

(** ** The header scanner and the short line *)

(** The loop of [ParseAllFields] slices [line[0:7]] with no test on the
    length: a line of fewer than seven bytes met before the [#fields] line
    panics. *)
Lemma ParseAllFields_scan_short (line : string) (rest : list string) :
  (String.length line < 7)%nat ->
  ParseAllFields_scan (line :: rest) = Panic SliceBoundsOutOfRange.
Proof.
  intros Hshort. simpl. unfold slice.
  replace (7 <=? String.length line)%nat with false
    by (symmetry; apply Nat.leb_gt; exact Hshort).
  reflexivity.
Qed.

(** The lines before the short one do not matter as long as none of them is
    the [#fields] line. *)
Lemma ParseAllFields_scan_skip (line : string) (rest : list string) :
  (7 <= String.length line)%nat ->
  String.substring 0 7 line <> "#fields" ->
  ParseAllFields_scan (line :: rest) = ParseAllFields_scan rest.
Proof.
  intros Hlong Hnot. simpl. unfold slice.
  replace (7 <=? String.length line)%nat with true
    by (symmetry; apply Nat.leb_le; exact Hlong).
  simpl. destruct (String.eqb_spec (String.substring 0 7 line) "#fields");
    [contradiction | reflexivity].
Qed.

(** C5.  [ParseAllFields] does not test the length of a line before it
    compares the prefix: an empty first line, a first line of five bytes and
    a line that is [#fields] with nothing after it each end the scan with a
    slice bounds panic, also when the well-formed header follows. *)
Theorem C5_short_line_panics :
  let p := selected "conn.log" ["a"; "c"] 2 in
  ParseAllFields (one_file "conn.log" ("" :: abc_log)) p =
    Panic SliceBoundsOutOfRange /\
  ParseAllFields (one_file "conn.log" ("#path" :: abc_log)) p =
    Panic SliceBoundsOutOfRange /\
  ParseAllFields (one_file "conn.log" ["#fields"]) p =
    Panic SliceBoundsOutOfRange /\
  ParseAllFields (one_file "conn.log" abc_log) p =
    Val (["a"; "b"; "c"], None).
Proof.
  repeat split; vm_compute; reflexivity.
Qed.

(** ** The row stream and the degenerate lines *)

(** A comment line is skipped, the line that is only [#] included. *)
Lemma BufferRow_line_comment (parseFunc : list Parse) (s : string)
    (w : world) :
  BufferRow_line parseFunc (String hash s) w = (Val tt, w).
Proof. reflexivity. Qed.

(** A line of one byte is skipped: its remainder after the first byte is
    empty. *)
Lemma BufferRow_line_one_byte (parseFunc : list Parse) (c : ascii)
    (w : world) :
  BufferRow_line parseFunc (String c "") w = (Val tt, w).
Proof.
  unfold BufferRow_line, bind, lift, ret.
  change (byte_at (String c "") 0) with (@Val ascii c). cbv iota beta.
  destruct (Ascii.eqb c hash); reflexivity.
Qed.

(** The empty line is not skipped: [line[0]] is read first. *)
Lemma BufferRow_line_empty (parseFunc : list Parse) (w : world) :
  BufferRow_line parseFunc "" w = (Panic IndexOutOfRange, w).
Proof. reflexivity. Qed.

(** C6.  A run over a file with an empty line panics at that line with an
    index out of range, in both modes: the rows before it have been sent,
    the rows after it are not, and the channel is left open.  The line that
    is only [#] and the line of one byte are skipped. *)
Theorem C6_empty_line_panics :
  let fs := one_file "conn.log" abc_log_blank in
  BufferRow fs [] (start (all_of "conn.log" (Some ["a"; "b"; "c"]) 4)) =
    (Panic IndexOutOfRange,
     {| parser := set_Row (all_of "conn.log" (Some ["a"; "b"; "c"]) 4)
                    (Some {| cap := 4; sent := [["1"; "2"; "3"]];
                             closed := false |});
        stdout := [] |}) /\
  emitted (parser (snd (BufferRow fs []
                          (start (selected "conn.log" ["a"; "c"] 4))))) =
    [["1"; "3"]] /\
  fst (BufferRow fs [] (start (selected "conn.log" ["a"; "c"] 4))) =
    Panic IndexOutOfRange /\
  BufferRow (one_file "conn.log" ["#"; "x"; tsv ["1"; "2"; "3"]]) []
    (start (all_of "conn.log" (Some ["a"; "b"; "c"]) 4)) =
    (Val tt,
     {| parser := set_Row (all_of "conn.log" (Some ["a"; "b"; "c"]) 4)
                    (Some {| cap := 4; sent := [["1"; "2"; "3"]];
                             closed := true |});
        stdout := [] |}).
Proof.
  repeat split; vm_compute; reflexivity.
Qed.

(** ** Closing the channel *)

Lemma snoc_neq {A : Type} (l : list A) (x : A) : l ++ [x] <> l.
Proof.
  intros H. apply (f_equal (@length A)) in H.
  rewrite length_app in H. simpl in H. lia.
Qed.

(** Index resolution prints nothing and leaves the channel alone. *)
Lemma GetIndexOfFields_loop_Row (all sel : list string) (w : world) :
  Row (parser (snd (GetIndexOfFields_loop all sel w))) = Row (parser w) /\
  stdout (snd (GetIndexOfFields_loop all sel w)) = stdout w.
Proof.
  revert w. induction sel as [| configField rest IH]; intros w; simpl.
  - split; reflexivity.
  - destruct (getIndex all configField) as [index [e |]]; simpl.
    + split; reflexivity.
    + unfold bind, get_p, put_p. simpl.
      destruct (IH {| parser :=
                        set_fieldsIndex (parser w)
                          (fieldsIndex (parser w) ++ [index]);
                      stdout := stdout w |}) as [HR Hs].
      rewrite HR, Hs. split; reflexivity.
Qed.

Lemma GetIndexOfFields_Row (fs : filesystem) (w : world) :
  Row (parser (snd (GetIndexOfFields fs w))) = Row (parser w) /\
  stdout (snd (GetIndexOfFields fs w)) = stdout w.
Proof.
  unfold GetIndexOfFields, bind, get_p, lift, ret. simpl.
  destruct (ParseAllFields fs (parser w)) as [[all [e |]] | r]; simpl;
    try (split; reflexivity).
  destruct (fields (parser w)) as [sel |]; simpl;
    [apply GetIndexOfFields_loop_Row | split; reflexivity].
Qed.

(** The loop never makes the channel nil. *)
Lemma send_Row_some (row : list string) (w : world) :
  Row (parser w) <> None -> Row (parser (snd (send_Row row w))) <> None.
Proof.
  unfold send_Row, bind, get_p, lift, put_p, ret, chan_send. simpl.
  destruct (Row (parser w)) as [c |] eqn:HR; [| contradiction].
  intros _. destruct (closed c); simpl; [rewrite HR |]; discriminate.
Qed.

Lemma BufferRow_line_some (parseFunc : list Parse) (line : string)
    (w : world) :
  Row (parser w) <> None ->
  Row (parser (snd (BufferRow_line parseFunc line w))) <> None.
Proof.
  intros HR. unfold BufferRow_line, bind, lift, get_p, ret, push_row.
  destruct (byte_at line 0) as [c0 | r]; simpl; [| exact HR].
  destruct (Ascii.eqb c0 hash); simpl; [exact HR |].
  destruct (slice_from line 1) as [tail | r]; simpl; [| exact HR].
  destruct (String.eqb tail ""); simpl; [exact HR |].
  destruct (allFields (parser w)).
  - destruct (negb _); simpl; [exact HR |].
    destruct parseFunc as [| f rest]; [apply send_Row_some; exact HR |].
    destruct (f _ _) as [modified [e |]]; apply send_Row_some; exact HR.
  - destruct (project _ _) as [parsedEntry | r]; simpl; [| exact HR].
    destruct parseFunc as [| f rest]; [apply send_Row_some; exact HR |].
    destruct (f _ _) as [modified [e |]]; apply send_Row_some; exact HR.
Qed.

Lemma for_each_line_some (parseFunc : list Parse) (lines : list string)
    (w : world) :
  Row (parser w) <> None ->
  Row (parser (snd (for_each (BufferRow_line parseFunc) lines w))) <> None.
Proof.
  revert w. induction lines as [| line rest IH]; intros w HR; simpl.
  - exact HR.
  - unfold bind.
    pose proof (BufferRow_line_some parseFunc line w HR) as HR'.
    destruct (BufferRow_line parseFunc line w) as [[[] | r] w']; simpl in *.
    + apply IH. exact HR'.
    + exact HR'.
Qed.

(** A run that returns without having printed anything went through the
    whole file and closed the channel: every early return of [BufferRow]
    prints a line first. *)
Lemma BufferRow_silent_return_closed (fs : filesystem)
    (parseFunc : list Parse) (w w' : world) :
  Row (parser w) <> None ->
  BufferRow fs parseFunc w = (Val tt, w') ->
  stdout w' = stdout w ->
  is_closed (parser w') = true.
Proof.
  intros HR Hrun Hout. unfold BufferRow, bind, get_p in Hrun.
  cbv iota beta in Hrun.
  destruct (Row (parser w)) as [c |] eqn:HRw; [| contradiction].
  destruct (fields (parser w)) as [names |].
  2:{ unfold fmt_Println in Hrun. injection Hrun as <-. simpl in Hout.
      exfalso. exact (snoc_neq _ _ Hout). }
  assert (Hstep : forall r1 w1,
             (if allFields (parser w) then ret None else GetIndexOfFields fs) w
             = (r1, w1) ->
             Row (parser w1) = Some c /\ stdout w1 = stdout w).
  { intros r1 w1 H1. destruct (allFields (parser w)).
    - unfold ret in H1. injection H1 as _ <-. split; [exact HRw | reflexivity].
    - pose proof (GetIndexOfFields_Row fs w) as [Ha Hb].
      rewrite H1 in Ha, Hb. simpl in Ha, Hb. rewrite Ha, Hb.
      split; [exact HRw | reflexivity]. }
  destruct ((if allFields (parser w) then ret None else GetIndexOfFields fs) w)
    as [[[e |] | r] w1] eqn:H1; [| | discriminate];
    destruct (Hstep _ _ eq_refl) as [HR1 Hs1].
  - unfold fmt_Println in Hrun. injection Hrun as <-. simpl in Hout.
    rewrite Hs1 in Hout. exfalso. exact (snoc_neq _ _ Hout).
  - destruct (os_Open fs (filepath (parser w))) as [file [e |]].
    + unfold fmt_Println in Hrun. injection Hrun as <-. simpl in Hout.
      rewrite Hs1 in Hout. exfalso. exact (snoc_neq _ _ Hout).
    + unfold bind in Hrun.
      assert (HR2 : Row (parser (snd (for_each (BufferRow_line parseFunc)
                                        file w1))) <> None)
        by (apply for_each_line_some; rewrite HR1; discriminate).
      destruct (for_each (BufferRow_line parseFunc) file w1)
        as [[[] | r] w2]; [| discriminate].
      simpl in HR2. unfold close_Row, bind, get_p, lift, put_p, chan_close in Hrun.
      cbv iota beta in Hrun.
      destruct (Row (parser w2)) as [c2 |]; [| contradiction].
      destruct (closed c2); [discriminate |].
      injection Hrun as <-. reflexivity.
Qed.

(** C7.  On each early return of [BufferRow] with a channel that exists
    (no field names set, a selected name that is not in the header, a file
    that cannot be opened, in either mode) the run returns and the channel
    is left open: nothing closes it.  On the complete scan it is closed. *)
Theorem C7_abort_leaves_open :
  let fs := one_file "conn.log" abc_log in
  BufferRow fs [] (start (unset "conn.log" 2)) =
    (Val tt, {| parser := unset "conn.log" 2;
                stdout := ["No fields parsed"] |}) /\
  is_closed (parser (snd (BufferRow fs []
                            (start (selected "conn.log" ["z"] 2))))) = false /\
  fst (BufferRow fs [] (start (selected "conn.log" ["z"] 2))) = Val tt /\
  BufferRow no_file [] (start (selected "conn.log" ["a"; "c"] 2)) =
    (Val tt, {| parser := selected "conn.log" ["a"; "c"] 2;
                stdout := ["open conn.log: no such file or directory"] |}) /\
  BufferRow no_file [] (start (all_of "conn.log" (Some ["a"; "b"; "c"]) 2)) =
    (Val tt, {| parser := all_of "conn.log" (Some ["a"; "b"; "c"]) 2;
                stdout := ["open conn.log: no such file or directory"] |}) /\
  is_closed (selected "conn.log" ["a"; "c"] 2) = false /\
  is_closed (parser (snd (BufferRow fs []
                            (start (selected "conn.log" ["a"; "c"] 2))))) = true.
Proof.
  repeat split; vm_compute; reflexivity.
Qed.

(** ** Running twice *)

Lemma close_Row_config (w : world) :
  config (parser (snd (close_Row w))) = config (parser w).
Proof.
  unfold close_Row, bind, get_p, lift, put_p, ret, chan_close, config; simpl.
  break_match; reflexivity.
Qed.

(** In all-fields mode a run changes the channel of the parser and nothing
    else of it. *)
Lemma BufferRow_all_fields_config (fs : filesystem) (parseFunc : list Parse)
    (w : world) :
  allFields (parser w) = true ->
  config (parser (snd (BufferRow fs parseFunc w))) = config (parser w).
Proof.
  intros Hall. unfold BufferRow, bind, get_p. cbv iota beta.
  destruct (Row (parser w)) as [c |]; [| reflexivity].
  destruct (fields (parser w)) as [names |]; [| reflexivity].
  rewrite Hall. unfold ret. cbv iota beta.
  destruct (os_Open fs (filepath (parser w))) as [file [e |]]; [reflexivity |].
  pose proof (for_each_line_config parseFunc file w) as [Hc _].
  destruct (for_each (BufferRow_line parseFunc) file w) as [[[] | r] w2];
    simpl in Hc |- *.
  - rewrite close_Row_config. exact Hc.
  - exact Hc.
Qed.

Lemma CreateBuffer_config (p p' : Parser) (size : Z) :
  config p = config p' -> CreateBuffer p size = CreateBuffer p' size.
Proof.
  unfold config, CreateBuffer, set_Row. intros H.
  injection H as -> -> -> ->. reflexivity.
Qed.

(** In all-fields mode the second run, on a fresh channel, is the first. *)
Lemma BufferRow_all_fields_again (fs : filesystem) (parseFunc : list Parse)
    (p : Parser) (size : Z) :
  allFields p = true ->
  BufferRow fs parseFunc
    (start (CreateBuffer
              (parser (snd (BufferRow fs parseFunc
                              (start (CreateBuffer p size))))) size)) =
  BufferRow fs parseFunc (start (CreateBuffer p size)).
Proof.
  intros Hall.
  rewrite (CreateBuffer_config _ (CreateBuffer p size) size).
  - destruct p; reflexivity.
  - apply (BufferRow_all_fields_config fs parseFunc
             (start (CreateBuffer p size))).
    exact Hall.
Qed.

(** In selected-fields mode every run resolves the indices again and appends
    them to the ones it finds: after [k] successful resolutions the parser
    holds [k] copies of them. *)
Lemma GetIndexOfFields_appends (fs : filesystem) (w : world)
    (all sel : list string) :
  ParseAllFields fs (parser w) = Val (all, None) ->
  fields (parser w) = Some sel ->
  Forall (fun x => In x all) sel ->
  exists ix,
    length ix = length sel /\
    GetIndexOfFields fs w =
    (Val None,
     {| parser := set_fieldsIndex (parser w) (fieldsIndex (parser w) ++ ix);
        stdout := stdout w |}).
Proof.
  intros Hparse Hsel Hin.
  destruct (GetIndexOfFields_loop_found all sel w Hin) as (ix & Hix & Hrun).
  exists ix. split.
  - eapply Forall2_length. exact Hix.
  - unfold GetIndexOfFields, bind, get_p, lift. cbv iota beta.
    rewrite Hparse. cbv iota beta. rewrite Hsel. exact Hrun.
Qed.

(** C8.  In selected-fields mode the second run on the same file, with the
    same field names and a fresh channel, does not send the rows of the
    first: [GetIndexOfFields] has appended the indices [0, 2] to the [0, 2]
    of the first run, and every row comes out with its values twice. *)
Theorem C8_second_run_differs :
  let fs := one_file "conn.log" abc_log in
  let run1 := BufferRow fs [] (start (selected "conn.log" ["a"; "c"] 2)) in
  let run2 := BufferRow fs []
                (start (CreateBuffer (parser (snd run1)) 2)) in
  fst run1 = Val tt /\ fst run2 = Val tt /\
  emitted (parser (snd run1)) = [["1"; "3"]; ["4"; "6"]] /\
  emitted (parser (snd run2)) =
    [["1"; "3"; "1"; "3"]; ["4"; "6"; "4"; "6"]] /\
  fields (parser (snd run1)) = fields (parser (snd run2)) /\
  fieldsIndex (parser (snd run1)) = [0; 2]%Z /\
  fieldsIndex (parser (snd run2)) = [0; 2; 0; 2]%Z.
Proof.
  repeat split; vm_compute; reflexivity.
Qed.

(** ** What is required before the scan *)

(** The claim as the spec words it fails in all-fields mode: with a channel
    and no field names set, [BufferRow] prints and returns; no line of the
    file is scanned and no row is sent, though the file has a header and two
    rows. *)
Lemma C9_counterexample :
  BufferRow (one_file "conn.log" abc_log) []
    (start (all_of "conn.log" None 2)) =
  (Val tt, {| parser := all_of "conn.log" None 2;
              stdout := ["No fields parsed"] |}) /\
  allFields (all_of "conn.log" None 2) = true /\
  emitted (all_of "conn.log" None 2) = [].
Proof.
  repeat split; vm_compute; reflexivity.
Qed.

(** C9, as the code has it.  [BufferRow] requires the channel and, in both
    modes, the field names, before anything else: with a nil channel it
    prints a line and returns; with a channel and no field names it prints a
    line and returns, in all-fields mode too; the parser is left as it was
    and the file is not opened.  With both, all-fields mode goes to the scan
    of the file without resolving indices. *)
Theorem C9_preconditions (fs : filesystem) (parseFunc : list Parse)
    (w : world) :
  (Row (parser w) = None ->
   BufferRow fs parseFunc w =
   (Val tt, {| parser := parser w;
               stdout := stdout w ++
                         ["Initialize nil channel, via CreateBuffer()"] |})) /\
  (Row (parser w) <> None -> fields (parser w) = None ->
   BufferRow fs parseFunc w =
   (Val tt, {| parser := parser w;
               stdout := stdout w ++ ["No fields parsed"] |})) /\
  (forall file,
   Row (parser w) <> None -> fields (parser w) <> None ->
   allFields (parser w) = true ->
   fs (filepath (parser w)) = Some file ->
   BufferRow fs parseFunc w =
   (for_each (BufferRow_line parseFunc) file ;;; close_Row) w).
Proof.
  unfold BufferRow, bind, get_p. cbv iota beta.
  split; [| split].
  - intros HR. rewrite HR. reflexivity.
  - intros HR Hf. destruct (Row (parser w)); [| contradiction].
    rewrite Hf. reflexivity.
  - intros file HR Hf Hall Hopen.
    destruct (Row (parser w)); [| contradiction].
    destruct (fields (parser w)); [| contradiction].
    rewrite Hall. unfold ret, os_Open. cbv iota beta. rewrite Hopen.
    reflexivity.
Qed.

Lemma C9_preconditions_witness :
  BufferRow (one_file "conn.log" abc_log) []
    (start (all_of "conn.log" None 2)) =
  (Val tt, {| parser := all_of "conn.log" None 2;
              stdout := ["No fields parsed"] |}) /\
  emitted (parser (snd (BufferRow (one_file "conn.log" abc_log) []
             (start (all_of "conn.log" (Some ["a"; "b"; "c"]) 2))))) =
  [["1"; "2"; "3"]; ["4"; "5"; "6"]].
Proof.
  destruct (C9_preconditions (one_file "conn.log" abc_log) []
              (start (all_of "conn.log" None 2))) as (_ & Hunset & _).
  destruct (C9_preconditions (one_file "conn.log" abc_log) []
              (start (all_of "conn.log" (Some ["a"; "b"; "c"]) 2)))
    as (_ & _ & Hscan).
  split.
  - apply Hunset; [discriminate | reflexivity].
  - rewrite (Hscan abc_log);
      [reflexivity | discriminate | discriminate | reflexivity | reflexivity].
Defined.

(** ** Selected-fields mode: projection without a test on the length *)

Lemma in_range_dec (entry : list string) (i : Z) :
  {in_range entry i} + {~ in_range entry i}.
Proof.
  unfold in_range.
  destruct (Z_le_dec 0 i); destruct (Z_lt_dec i (Z.of_nat (length entry)));
    (left; lia) || (right; lia).
Qed.

Lemma elem_at_in_range (entry : list string) (i : Z) :
  in_range entry i ->
  elem_at entry i = Val (nth (Z.to_nat i) entry "").
Proof.
  unfold in_range, elem_at. intros [Hlo Hhi].
  replace (i <? 0)%Z with false by (symmetry; apply Z.ltb_ge; exact Hlo).
  destruct (nth_error entry (Z.to_nat i)) as [v |] eqn:Hnth.
  - rewrite (nth_error_nth _ _ _ Hnth). reflexivity.
  - apply nth_error_None in Hnth. lia.
Qed.

Lemma elem_at_out_of_range (entry : list string) (i : Z) :
  ~ in_range entry i -> elem_at entry i = Panic IndexOutOfRange.
Proof.
  unfold in_range, elem_at. intros Hout.
  destruct (Z.ltb_spec i 0) as [Hneg | Hpos]; [reflexivity |].
  destruct (nth_error entry (Z.to_nat i)) as [v |] eqn:Hnth; [| reflexivity].
  exfalso. apply Hout. split; [exact Hpos |].
  assert (Z.to_nat i < length entry)%nat
    by (apply nth_error_Some; rewrite Hnth; discriminate).
  lia.
Qed.

(** The projection succeeds exactly when every index is in range, and is
    then the list of the values at the indices, in their order. *)
Lemma project_in_range (entry : list string) (ix : list Z) :
  Forall (in_range entry) ix ->
  project entry ix = Val (map (fun i => nth (Z.to_nat i) entry "") ix).
Proof.
  induction 1 as [| i ix Hi Hix IH]; simpl.
  - reflexivity.
  - rewrite (elem_at_in_range entry i Hi), IH. reflexivity.
Qed.

Lemma project_out_of_range (entry : list string) (ix : list Z) :
  ~ Forall (in_range entry) ix ->
  project entry ix = Panic IndexOutOfRange.
Proof.
  induction ix as [| i ix IH]; intros Hnot; simpl.
  - exfalso. apply Hnot. constructor.
  - destruct (in_range_dec entry i) as [Hi | Hi].
    + rewrite (elem_at_in_range entry i Hi), IH; [reflexivity |].
      intros Hall. apply Hnot. constructor; assumption.
    + rewrite (elem_at_out_of_range entry i Hi). reflexivity.
Qed.

(** On an open channel the sending block sends exactly one row. *)
Lemma push_row_sends (parseFunc : list Parse) (flds row : list string)
    (w : world) (c : chan) :
  Row (parser w) = Some c ->
  closed c = false ->
  push_row parseFunc flds row w =
  (Val tt,
   {| parser :=
        set_Row (parser w)
          (Some {| cap := cap c;
                   sent := sent c ++ [row_sent parseFunc flds row];
                   closed := false |});
      stdout := stdout w |}).
Proof.
  intros HR Hopen.
  assert (Hsend : forall r,
    send_Row r w =
    (Val tt,
     {| parser := set_Row (parser w)
                    (Some {| cap := cap c; sent := sent c ++ [r];
                             closed := false |});
        stdout := stdout w |})).
  { intros r. unfold send_Row, bind, get_p, lift, put_p, chan_send.
    cbv iota beta. rewrite HR. cbv iota beta. rewrite Hopen. reflexivity. }
  unfold push_row, row_sent. destruct parseFunc as [| f rest].
  - apply Hsend.
  - destruct (f flds row) as [modified [e |]]; apply Hsend.
Qed.

(** C10.  In selected-fields mode, on a data line (first byte not [#],
    something after it) and an open channel, the loop body compares no
    lengths: when every resolved index is in the range of the values of the
    line it sends one row, the values at the indices (or what the [Parse]
    function makes of them), whatever the number of values and of field
    names; when some index is not, it panics with an index out of range and
    sends nothing. *)
Theorem C10_selected_projects_unchecked (parseFunc : list Parse)
    (w : world) (c : chan) (ch : ascii) (tail : string) :
  allFields (parser w) = false ->
  Row (parser w) = Some c ->
  closed c = false ->
  ch <> hash ->
  tail <> "" ->
  let line := String ch tail in
  let entry := strings_Split line tab in
  let parsedEntry :=
    map (fun i => nth (Z.to_nat i) entry "") (fieldsIndex (parser w)) in
  (Forall (in_range entry) (fieldsIndex (parser w)) ->
   BufferRow_line parseFunc line w =
   (Val tt,
    {| parser :=
         set_Row (parser w)
           (Some {| cap := cap c;
                    sent := sent c ++
                      [row_sent parseFunc (elems (fields (parser w)))
                         parsedEntry];
                    closed := false |});
       stdout := stdout w |})) /\
  (~ Forall (in_range entry) (fieldsIndex (parser w)) ->
   BufferRow_line parseFunc line w = (Panic IndexOutOfRange, w)).
Proof.
  intros Hsel HR Hopen Hch Htail line entry parsedEntry.
  assert (Hbody : BufferRow_line parseFunc line w =
                  (parsedEntry <- lift (project entry (fieldsIndex (parser w))) ;;
                   push_row parseFunc (elems (fields (parser w))) parsedEntry) w).
  { unfold BufferRow_line, bind at 1, lift at 1. subst line.
    change (byte_at (String ch tail) 0) with (@Val ascii ch). cbv iota beta.
    destruct (Ascii.eqb_spec ch hash) as [Heq | _]; [contradiction |].
    unfold bind at 1, lift at 1. rewrite slice_from_1. cbv iota beta.
    destruct (String.eqb_spec tail "") as [Heq | _]; [contradiction |].
    unfold bind at 1, get_p. cbv iota beta. rewrite Hsel. reflexivity. }
  rewrite Hbody. unfold bind, lift. split.
  - intros Hin. rewrite (project_in_range entry _ Hin).
    apply push_row_sends; assumption.
  - intros Hout. rewrite (project_out_of_range entry _ Hout). reflexivity.
Qed.

Lemma C10_selected_projects_unchecked_witness :
  let p := set_fieldsIndex (selected "conn.log" ["a"; "c"] 2) [0; 2]%Z in
  BufferRow_line [] (tsv ["1"; "2"; "3"; "4"]) (start p) =
    (Val tt,
     {| parser := set_Row p (Some {| cap := 2; sent := [["1"; "3"]];
                                     closed := false |});
        stdout := [] |}) /\
  BufferRow_line [] (tsv ["1"; "2"]) (start p) =
    (Panic IndexOutOfRange, start p).
Proof.
  intros p.
  destruct (C10_selected_projects_unchecked [] (start p) (make_chan 2)
              "1"%char (String tab (tsv ["2"; "3"; "4"])))
    as [Hsend _]; try reflexivity; try discriminate.
  destruct (C10_selected_projects_unchecked [] (start p) (make_chan 2)
              "1"%char (String tab "2"))
    as [_ Hpanic]; try reflexivity; try discriminate.
  split.
  - apply Hsend. repeat constructor; unfold in_range; simpl; lia.
  - apply Hpanic. intros Hall. inversion Hall as [| i ix Hi Hix]; subst.
    inversion Hix as [| j jx Hj Hjx]; subst.
    unfold in_range in Hj. simpl in Hj. lia.
Defined.

(** * Beyond the claims *)

(** ** [getIndex] *)

Lemma getIndex_from_first (i : Z) (all : list string) (z : string) :
  In z all ->
  exists n : nat,
    getIndex_from i all z = ((i + Z.of_nat n)%Z, None) /\
    nth_error all n = Some z /\
    (forall j, (j < n)%nat -> nth_error all j <> Some z) /\
    (forall entry, nth_error entry n = column all entry z).
Proof.
  revert i. induction all as [| field rest IH]; intros i Hin.
  - destruct Hin.
  - simpl getIndex_from. destruct (String.eqb_spec field z) as [Heq | Hne].
    + exists 0%nat. subst field. rewrite Z.add_0_r.
      split; [reflexivity |]. split; [reflexivity |]. split; [intros j Hj; lia |].
      intros [| v entry]; simpl; [reflexivity |].
      rewrite String.eqb_refl. reflexivity.
    + destruct Hin as [Heq | Hin]; [contradiction |].
      destruct (IH (i + 1)%Z Hin) as (n & Hget & Hnth & Hfirst & Hcol).
      exists (S n). split; [rewrite Hget; f_equal; lia |].
      split; [exact Hnth |]. split.
      * intros [| j] Hj; simpl.
        -- intros H. injection H as H. contradiction.
        -- apply Hfirst. lia.
      * intros [| v entry]; simpl.
        -- destruct n; reflexivity.
        -- destruct (String.eqb_spec field z) as [Heq | _]; [contradiction |].
           apply Hcol.
Qed.

(** X1.  For a name that is in the slice, [getIndex] returns a nil error and
    the position of its first occurrence: the element there is the name and
    no element before it is. *)
Theorem getIndex_first_occurrence (all : list string) (z : string) :
  In z all ->
  exists n : nat,
    getIndex all z = (Z.of_nat n, None) /\
    nth_error all n = Some z /\
    (forall j, (j < n)%nat -> nth_error all j <> Some z).
Proof.
  intros Hin.
  destruct (getIndex_from_first 0 all z Hin) as (n & Hget & Hnth & Hfirst & _).
  exists n. unfold getIndex. rewrite Hget. repeat split; assumption.
Qed.

Lemma getIndex_first_occurrence_witness :
  exists n : nat,
    getIndex ["ts"; "uid"; "ts"] "ts" = (Z.of_nat n, None) /\
    nth_error ["ts"; "uid"; "ts"] n = Some "ts" /\
    (forall j, (j < n)%nat -> nth_error ["ts"; "uid"; "ts"] j <> Some "ts").
Proof.
  apply (getIndex_first_occurrence ["ts"; "uid"; "ts"] "ts").
  left. reflexivity.
Defined.

(** X2.  [getIndex] returns an error exactly for the names that are not in
    the slice, and then the index [-1] and the message that ends with the
    name. *)
Theorem getIndex_error_iff_absent (all : list string) (z : string) :
  (snd (getIndex all z) <> None <-> ~ In z all) /\
  (getIndex all z = ((-1)%Z, Some (NotFound z)) <-> ~ In z all).
Proof.
  assert (Hpresent : In z all -> snd (getIndex all z) = None).
  { intros Hin.
    destruct (getIndex_from_present 0 all z Hin) as (k & Hk & _).
    unfold getIndex. rewrite Hk. reflexivity. }
  assert (Habsent : ~ In z all ->
                    getIndex all z = ((-1)%Z, Some (NotFound z)))
    by (intros Hnot; apply getIndex_from_absent; exact Hnot).
  split; split.
  - intros Herr Hin. apply Herr. apply Hpresent. exact Hin.
  - intros Hnot. rewrite (Habsent Hnot). discriminate.
  - intros Hget Hin. apply Hpresent in Hin. rewrite Hget in Hin. discriminate.
  - exact Habsent.
Qed.

(** ** [ParseAllFields] *)

Lemma ParseAllFields_scan_passes (pre rest : list string) :
  Forall passed_over pre ->
  ParseAllFields_scan (pre ++ rest) = ParseAllFields_scan rest.
Proof.
  induction 1 as [| line pre [Hlong Hnot] Hpre IH]; simpl app.
  - reflexivity.
  - rewrite (ParseAllFields_scan_skip line _ Hlong Hnot). exact IH.
Qed.

Lemma ParseAllFields_scan_directive (c : ascii) (names : string)
    (post : list string) :
  ParseAllFields_scan (directive c names :: post) =
  if String.eqb names ""
  then Val ([], Some (errors_New "Fields row is malformed"))
  else Val (strings_Split names tab, None).
Proof.
  unfold directive, ParseAllFields_scan, slice, slice_from. simpl.
  rewrite Nat.sub_0_r, substring_whole. reflexivity.
Qed.

(** X3.  [ParseAllFields] returns the names of the first [#fields] line, split
    at the tabs, with a nil error: whatever the byte that follows the prefix,
    and whatever the lines after it, which are never read (a second
    [#fields] line, short lines and empty lines included). *)
Theorem ParseAllFields_first_directive (fs : filesystem) (p : Parser)
    (pre : list string) (c : ascii) (names : string) (post : list string) :
  fs (filepath p) = Some (pre ++ directive c names :: post) ->
  Forall passed_over pre ->
  names <> "" ->
  ParseAllFields fs p = Val (strings_Split names tab, None).
Proof.
  intros Hopen Hpre Hnames. unfold ParseAllFields, os_Open. rewrite Hopen.
  rewrite (ParseAllFields_scan_passes pre _ Hpre).
  rewrite ParseAllFields_scan_directive.
  destruct (String.eqb_spec names "") as [Heq | _]; [contradiction |].
  reflexivity.
Qed.

Lemma ParseAllFields_first_directive_witness :
  ParseAllFields
    (one_file "conn.log"
       (["#separator \x09"; "#path" ++ String tab "conn"]%string ++
        directive tab (tsv ["ts"; "uid"]) ::
        [""; directive tab "x"; tsv ["1"; "C1"]]))
    (selected "conn.log" ["uid"] 0) =
  Val (["ts"; "uid"], None).
Proof.
  apply (ParseAllFields_first_directive _ _
           ["#separator \x09"; "#path" ++ String tab "conn"]%string
           tab (tsv ["ts"; "uid"])
           [""; directive tab "x"; tsv ["1"; "C1"]]).
  - reflexivity.
  - repeat constructor; simpl; try lia; discriminate.
  - discriminate.
Defined.

(** X4.  On a file without a [#fields] line, all of whose lines have seven
    bytes or more, [ParseAllFields] returns no name and a nil error: a
    missing header is not an error of the scan. *)
Theorem ParseAllFields_no_directive (fs : filesystem) (p : Parser)
    (lines : list string) :
  fs (filepath p) = Some lines ->
  Forall passed_over lines ->
  ParseAllFields fs p = Val ([], None).
Proof.
  intros Hopen Hlines. unfold ParseAllFields, os_Open. rewrite Hopen.
  rewrite <- (app_nil_r lines).
  rewrite (ParseAllFields_scan_passes lines [] Hlines). reflexivity.
Qed.

Lemma ParseAllFields_no_directive_witness :
  ParseAllFields
    (one_file "conn.log" ["#separator \x09"; tsv ["1500000000"; "C1"]])
    (selected "conn.log" ["uid"] 0) =
  Val ([], None).
Proof.
  apply (ParseAllFields_no_directive _ _
           ["#separator \x09"; tsv ["1500000000"; "C1"]]).
  - reflexivity.
  - repeat constructor; simpl; try lia; discriminate.
Defined.

(** X5.  A [#fields] line of exactly eight bytes (the prefix and one byte,
    no name) makes [ParseAllFields] return the error [Fields row is
    malformed] and no name, whatever follows it in the file. *)
Theorem ParseAllFields_malformed (fs : filesystem) (p : Parser)
    (pre : list string) (c : ascii) (post : list string) :
  fs (filepath p) = Some (pre ++ directive c "" :: post) ->
  Forall passed_over pre ->
  ParseAllFields fs p =
  Val ([], Some (errors_New "Fields row is malformed")).
Proof.
  intros Hopen Hpre. unfold ParseAllFields, os_Open. rewrite Hopen.
  rewrite (ParseAllFields_scan_passes pre _ Hpre).
  rewrite ParseAllFields_scan_directive. reflexivity.
Qed.

Lemma ParseAllFields_malformed_witness :
  ParseAllFields
    (one_file "conn.log"
       ([] ++ directive tab "" :: [directive tab (tsv ["ts"; "uid"])]))
    (selected "conn.log" ["uid"] 0) =
  Val ([], Some (errors_New "Fields row is malformed")).
Proof.
  apply (ParseAllFields_malformed _ _ [] tab
           [directive tab (tsv ["ts"; "uid"])]).
  - reflexivity.
  - constructor.
Defined.

(** ** The header and its line *)

Lemma strings_Split_nonempty (s : string) (sep : ascii) :
  strings_Split s sep <> [].
Proof.
  destruct s as [| c s]; simpl; [discriminate |].
  destruct (Ascii.eqb c sep); [discriminate |].
  destruct (strings_Split s sep); discriminate.
Qed.

Lemma concat_cons_nonempty (sep x : string) (l : list string) :
  l <> [] ->
  String.concat sep (x :: l) = (x ++ sep ++ String.concat sep l)%string.
Proof.
  destruct l as [| y l]; [contradiction | reflexivity].
Qed.

Lemma tsv_head (c : ascii) (x : string) (xs : list string) :
  tsv (String c x :: xs) = String c (tsv (x :: xs)).
Proof.
  unfold tsv. destruct xs as [| y ys]; reflexivity.
Qed.

(** Joining with tabs undoes splitting at the tabs. *)
Lemma tsv_strings_Split (s : string) : tsv (strings_Split s tab) = s.
Proof.
  induction s as [| c s IH]; simpl.
  - reflexivity.
  - destruct (Ascii.eqb_spec c tab) as [Heq | Hne].
    + unfold tsv in *.
      rewrite concat_cons_nonempty by apply strings_Split_nonempty.
      simpl. rewrite IH, Heq. reflexivity.
    + pose proof (strings_Split_nonempty s tab) as Hne'.
      destruct (strings_Split s tab) as [| x xs]; [contradiction |].
      rewrite tsv_head, IH. reflexivity.
Qed.

Lemma bytes_Count_nonneg (s : string) (sep : ascii) :
  (0 <= bytes_Count s sep)%Z.
Proof.
  induction s as [| c s IH]; cbn [bytes_Count]; [lia |].
  destruct (Ascii.eqb c sep); lia.
Qed.

Lemma length_strings_Split (s : string) :
  length (strings_Split s tab) = S (tabs s).
Proof.
  unfold tabs. induction s as [| c s IH]; cbn [strings_Split bytes_Count].
  - reflexivity.
  - pose proof (bytes_Count_nonneg s tab) as Hpos.
    destruct (Ascii.eqb c tab).
    + cbn [length]. rewrite IH. lia.
    + destruct (strings_Split s tab) as [| x xs]; cbn [length] in *; lia.
Qed.

Lemma strings_Split_no_tab (s : string) :
  Forall (fun v => bytes_Count v tab = 0%Z) (strings_Split s tab).
Proof.
  induction s as [| c s IH]; simpl.
  - repeat constructor.
  - destruct (Ascii.eqb c tab) eqn:Hc.
    + constructor; [reflexivity | exact IH].
    + destruct (strings_Split s tab) as [| x xs]; simpl.
      * repeat constructor. simpl. rewrite Hc. reflexivity.
      * inversion IH as [| ? ? Hx Hxs]; subst.
        constructor; [simpl; rewrite Hc, Hx; reflexivity | exact Hxs].
Qed.

(** X6.  The header that [ParseAllFields] returns for a [#fields] line has
    one name more than the names part of the line has tabs, none of its
    names holds a tab, and joined with tabs it is the names part again: the
    header loses nothing of the line (empty names between two tabs
    included). *)
Theorem ParseAllFields_header_of_line (fs : filesystem) (p : Parser)
    (pre : list string) (c : ascii) (names : string) (post : list string) :
  fs (filepath p) = Some (pre ++ directive c names :: post) ->
  Forall passed_over pre ->
  names <> "" ->
  exists header,
    ParseAllFields fs p = Val (header, None) /\
    length header = S (tabs names) /\
    Forall (fun name => bytes_Count name tab = 0%Z) header /\
    tsv header = names.
Proof.
  intros Hopen Hpre Hnames. exists (strings_Split names tab).
  split; [| split; [| split]].
  - unfold ParseAllFields, os_Open. rewrite Hopen.
    rewrite (ParseAllFields_scan_passes pre _ Hpre).
    rewrite ParseAllFields_scan_directive.
    destruct (String.eqb_spec names "") as [Heq | _]; [contradiction |].
    reflexivity.
  - apply length_strings_Split.
  - apply strings_Split_no_tab.
  - apply tsv_strings_Split.
Qed.

Lemma ParseAllFields_header_of_line_witness :
  exists header,
    ParseAllFields
      (one_file "conn.log"
         ([] ++ directive tab (tsv ["ts"; ""; "id.orig_h"]) :: []))
      (selected "conn.log" ["ts"] 0) = Val (header, None) /\
    length header = S (tabs (tsv ["ts"; ""; "id.orig_h"])) /\
    Forall (fun name => bytes_Count name tab = 0%Z) header /\
    tsv header = tsv ["ts"; ""; "id.orig_h"].
Proof.
  apply (ParseAllFields_header_of_line _ _ [] tab
           (tsv ["ts"; ""; "id.orig_h"]) []).
  - reflexivity.
  - constructor.
  - discriminate.
Defined.

(** ** [GetIndexOfFields] *)

Lemma GetIndexOfFields_loop_map (all sel : list string) (w : world) :
  Forall (fun x => In x all) sel ->
  GetIndexOfFields_loop all sel w =
  (Val None,
   {| parser := set_fieldsIndex (parser w)
                  (fieldsIndex (parser w) ++
                   map (fun x => fst (getIndex all x)) sel);
      stdout := stdout w |}).
Proof.
  intros Hsel. revert w.
  induction Hsel as [| x sel Hx Hsel IH]; intros w.
  - simpl. unfold ret. rewrite app_nil_r.
    destruct w as [[a f ix path r] out]. reflexivity.
  - destruct (getIndex_from_present 0 all x Hx) as (k & Hk & _).
    cbn [GetIndexOfFields_loop map]. unfold getIndex in *. rewrite Hk.
    unfold bind at 1, get_p. cbv iota beta.
    unfold bind at 1, put_p. cbv iota beta.
    rewrite IH. cbn [parser stdout fst]. unfold set_fieldsIndex.
    cbn [allFields fields fieldsIndex filepath Row].
    rewrite <- app_assoc. reflexivity.
Qed.

Lemma project_selected (header sel entry : list string) :
  Forall (fun x => In x header) sel ->
  (length header <= length entry)%nat ->
  project entry (map (fun x => fst (getIndex header x)) sel) =
  Val (select_columns header sel entry).
Proof.
  intros Hsel Hlen. induction Hsel as [| x sel Hx Hsel IH].
  - reflexivity.
  - cbn [map project select_columns]. fold (select_columns header sel entry).
    destruct (getIndex_from_first 0 header x Hx)
      as (n & Hget & Hnth & _ & Hcol).
    unfold getIndex. rewrite Hget. cbn [fst]. rewrite Z.add_0_l.
    assert (Hn : (n < length header)%nat)
      by (apply nth_error_Some; rewrite Hnth; discriminate).
    unfold elem_at.
    replace (Z.of_nat n <? 0)%Z with false by (symmetry; apply Z.ltb_ge; lia).
    rewrite Nat2Z.id. rewrite (Hcol entry).
    destruct (column header entry x) as [v |] eqn:Hv.
    + unfold getIndex in IH. rewrite IH. reflexivity.
    + exfalso. rewrite <- (Hcol entry) in Hv.
      apply nth_error_None in Hv. lia.
Qed.

(** X7.  When the header has every selected name, [GetIndexOfFields] returns
    a nil error and appends one index per name, in the order of the
    selection; projecting a row that has at least as many values as the
    header at these indices gives, for each selected name, the value in the
    first column of that name. *)
Theorem GetIndexOfFields_resolves (fs : filesystem) (w : world)
    (header sel : list string) :
  ParseAllFields fs (parser w) = Val (header, None) ->
  fields (parser w) = Some sel ->
  Forall (fun x => In x header) sel ->
  exists ix,
    GetIndexOfFields fs w =
    (Val None,
     {| parser := set_fieldsIndex (parser w) (fieldsIndex (parser w) ++ ix);
        stdout := stdout w |}) /\
    length ix = length sel /\
    forall entry,
      (length header <= length entry)%nat ->
      project entry ix = Val (select_columns header sel entry).
Proof.
  intros Hparse Hfields Hsel.
  exists (map (fun x => fst (getIndex header x)) sel).
  split; [| split].
  - unfold GetIndexOfFields, bind, get_p, lift. cbv iota beta.
    rewrite Hparse. cbv iota beta. rewrite Hfields.
    apply GetIndexOfFields_loop_map. exact Hsel.
  - apply length_map.
  - intros entry Hlen. apply project_selected; assumption.
Qed.

Lemma GetIndexOfFields_resolves_witness :
  exists ix,
    GetIndexOfFields (one_file "conn.log" abc_log)
      (start (selected "conn.log" ["c"; "a"; "c"] 0)) =
    (Val None,
     {| parser := set_fieldsIndex (selected "conn.log" ["c"; "a"; "c"] 0)
                    ([] ++ ix);
        stdout := [] |}) /\
    length ix = 3%nat /\
    forall entry,
      (3 <= length entry)%nat ->
      project entry ix = Val (select_columns ["a"; "b"; "c"] ["c"; "a"; "c"] entry).
Proof.
  apply (GetIndexOfFields_resolves (one_file "conn.log" abc_log)
           (start (selected "conn.log" ["c"; "a"; "c"] 0))
           ["a"; "b"; "c"] ["c"; "a"; "c"]).
  - vm_compute. reflexivity.
  - reflexivity.
  - repeat apply Forall_cons; try apply Forall_nil; simpl; auto 10.
Defined.

(** [GetIndexOfFields] scans the file for the header before it looks
    at the selection: with no field names set it returns the error [No
    specific fields defined for parsing] only when that scan succeeded, and
    the error of the scan (the file that cannot be opened, the malformed
    [#fields] line) otherwise; in each case the parser is left as it was. *)
Lemma GetIndexOfFields_unset (fs : filesystem) (w : world) :
  fields (parser w) = None ->
  (forall header,
     ParseAllFields fs (parser w) = Val (header, None) ->
     GetIndexOfFields fs w =
     (Val (Some (errors_New "No specific fields defined for parsing")), w)) /\
  (forall header e,
     ParseAllFields fs (parser w) = Val (header, Some e) ->
     GetIndexOfFields fs w = (Val (Some e), w)) /\
  (fs (filepath (parser w)) = None ->
   GetIndexOfFields fs w =
   (Val (Some (PathError "open" (filepath (parser w)))), w)).
Proof.
  intros Hunset. unfold GetIndexOfFields, bind, get_p, lift, ret.
  cbv iota beta. split; [| split].
  - intros header Hparse. rewrite Hparse. cbv iota beta. rewrite Hunset.
    reflexivity.
  - intros header e Hparse. rewrite Hparse. reflexivity.
  - intros Hopen. unfold ParseAllFields, os_Open. rewrite Hopen. reflexivity.
Qed.

Lemma GetIndexOfFields_unset_witness :
  GetIndexOfFields no_file (start (unset "conn.log" 0)) =
  (Val (Some (PathError "open" "conn.log")), start (unset "conn.log" 0)) /\
  GetIndexOfFields (one_file "conn.log" abc_log) (start (unset "conn.log" 0)) =
  (Val (Some (errors_New "No specific fields defined for parsing")),
   start (unset "conn.log" 0)).
Proof.
  destruct (GetIndexOfFields_unset no_file (start (unset "conn.log" 0))
              eq_refl) as (_ & _ & Hopen).
  destruct (GetIndexOfFields_unset (one_file "conn.log" abc_log)
              (start (unset "conn.log" 0)) eq_refl) as (Hok & _ & _).
  split.
  - apply Hopen. reflexivity.
  - apply (Hok ["a"; "b"; "c"]). vm_compute. reflexivity.
Defined.

(** ** What a complete run sends *)

Lemma with_sent_nil (w : world) (c : chan) :
  Row (parser w) = Some c -> closed c = false -> with_sent w c [] = w.
Proof.
  intros HR Hopen. unfold with_sent, set_Row. rewrite app_nil_r.
  destruct w as [[a f ix path r] out]. simpl in *. subst r.
  destruct c as [n s b]. simpl in *. subst b. reflexivity.
Qed.

Lemma with_sent_app (w : world) (c : chan) (r1 r2 : list (list string)) :
  with_sent (with_sent w c r1)
    {| cap := cap c; sent := sent c ++ r1; closed := false |} r2 =
  with_sent w c (r1 ++ r2).
Proof.
  unfold with_sent, set_Row. simpl. rewrite <- app_assoc. reflexivity.
Qed.

Lemma push_row_with_sent (parseFunc : list Parse) (flds row : list string)
    (w : world) (c : chan) :
  Row (parser w) = Some c ->
  closed c = false ->
  push_row parseFunc flds row w =
  (Val tt, with_sent w c [row_sent parseFunc flds row]).
Proof.
  intros HR Hopen. rewrite (push_row_sends parseFunc flds row w c HR Hopen).
  reflexivity.
Qed.

(** A line that is not empty and is not a row is passed over. *)
Lemma BufferRow_line_not_row (parseFunc : list Parse) (line : string)
    (w : world) :
  line <> "" -> is_row line = false ->
  BufferRow_line parseFunc line w = (Val tt, w).
Proof.
  intros Hline Hrow. destruct line as [| ch tail]; [contradiction |].
  unfold BufferRow_line, bind, lift, ret.
  change (byte_at (String ch tail) 0) with (@Val ascii ch). cbv iota beta.
  unfold is_row in Hrow.
  destruct (Ascii.eqb ch hash); [reflexivity |].
  rewrite slice_from_1. cbv iota beta.
  destruct (String.eqb tail ""); [reflexivity | discriminate].
Qed.

(** On a row the loop body is the part that depends on the mode. *)
Lemma BufferRow_line_row (parseFunc : list Parse) (line : string)
    (w : world) :
  is_row line = true ->
  BufferRow_line parseFunc line w =
  (if allFields (parser w)
   then (if negb (fits (elems (fields (parser w))) (strings_Split line tab))
         then ret tt
         else push_row parseFunc (elems (fields (parser w)))
                (strings_Split line tab)) w
   else (parsedEntry <- lift (project (strings_Split line tab)
                                (fieldsIndex (parser w))) ;;
         push_row parseFunc (elems (fields (parser w))) parsedEntry) w).
Proof.
  intros Hrow. destruct line as [| ch tail]; [discriminate |].
  unfold is_row in Hrow. apply andb_prop in Hrow as [Hch Htail].
  unfold BufferRow_line, bind at 1, lift at 1.
  change (byte_at (String ch tail) 0) with (@Val ascii ch). cbv iota beta.
  destruct (Ascii.eqb ch hash); [discriminate |].
  unfold bind at 1, lift at 1. rewrite slice_from_1. cbv iota beta.
  destruct (String.eqb tail ""); [discriminate |].
  unfold bind at 1, get_p. cbv iota beta.
  destruct (allFields (parser w)); reflexivity.
Qed.

(** The loop in all-fields mode, on an open channel and a file without an
    empty line: the rows with as many values as there are field names are
    sent, in the order of the file. *)
Lemma for_each_all_fields (parseFunc : list Parse) (names : list string)
    (lines : list string) (w : world) (c : chan) :
  allFields (parser w) = true ->
  fields (parser w) = Some names ->
  Row (parser w) = Some c ->
  closed c = false ->
  Forall (fun line => line <> "") lines ->
  for_each (BufferRow_line parseFunc) lines w =
  (Val tt,
   with_sent w c
     (map (row_sent parseFunc names) (filter (fits names) (rows_of lines)))).
Proof.
  intros Hall Hnames HR Hopen Hlines. revert w c Hall Hnames HR Hopen.
  induction Hlines as [| line lines Hline Hlines IH];
    intros w c Hall Hnames HR Hopen.
  - simpl. unfold ret. rewrite with_sent_nil by assumption. reflexivity.
  - cbn [for_each]. unfold bind. unfold rows_of. cbn [filter].
    fold (rows_of lines).
    destruct (is_row line) eqn:Hrow.
    + rewrite (BufferRow_line_row parseFunc line w Hrow), Hall, Hnames.
      cbn [elems map filter]. fold (rows_of lines).
      destruct (fits names (strings_Split line tab)) eqn:Hfit; cbn [negb].
      * rewrite (push_row_with_sent _ _ _ w c HR Hopen).
        rewrite (IH (with_sent w c _)
                   {| cap := cap c;
                      sent := sent c ++
                        [row_sent parseFunc names (strings_Split line tab)];
                      closed := false |});
          try reflexivity; try assumption.
        rewrite with_sent_app. reflexivity.
      * unfold ret. apply IH; assumption.
    + rewrite (BufferRow_line_not_row parseFunc line w Hline Hrow).
      apply IH; assumption.
Qed.

(** The loop in selected-fields mode, when every resolved index is in the
    range of every row: every row is sent, projected. *)
Lemma for_each_selected (parseFunc : list Parse)
    (lines : list string) (w : world) (c : chan) :
  allFields (parser w) = false ->
  Row (parser w) = Some c ->
  closed c = false ->
  Forall (fun line => line <> "") lines ->
  Forall (fun entry => Forall (in_range entry) (fieldsIndex (parser w)))
         (rows_of lines) ->
  for_each (BufferRow_line parseFunc) lines w =
  (Val tt,
   with_sent w c
     (map (fun entry =>
             row_sent parseFunc (elems (fields (parser w)))
               (map (fun i => nth (Z.to_nat i) entry "")
                    (fieldsIndex (parser w))))
          (rows_of lines))).
Proof.
  intros Hsel HR Hopen Hlines. revert w c Hsel HR Hopen.
  induction Hlines as [| line lines Hline Hlines IH];
    intros w c Hsel HR Hopen Hin.
  - simpl. unfold ret. rewrite with_sent_nil by assumption. reflexivity.
  - cbn [for_each]. unfold bind. unfold rows_of in Hin |- *.
    cbn [filter] in Hin |- *. fold (rows_of lines) in Hin |- *.
    destruct (is_row line) eqn:Hrow.
    + cbn [map] in Hin |- *. fold (rows_of lines) in Hin |- *.
      inversion Hin as [| e es He Hes]; subst.
      rewrite (BufferRow_line_row parseFunc line w Hrow), Hsel.
      unfold bind, lift. rewrite (project_in_range _ _ He).
      rewrite (push_row_with_sent _ _ _ w c HR Hopen).
      rewrite (IH (with_sent w c _)
                 {| cap := cap c;
                    sent := sent c ++
                      [row_sent parseFunc (elems (fields (parser w)))
                         (map (fun i => nth (Z.to_nat i)
                                          (strings_Split line tab) "")
                              (fieldsIndex (parser w)))];
                    closed := false |});
        try reflexivity; try assumption.
      rewrite with_sent_app. reflexivity.
    + rewrite (BufferRow_line_not_row parseFunc line w Hline Hrow).
      apply IH; assumption.
Qed.

Lemma close_with_sent (w : world) (c : chan) (rows : list (list string)) :
  close_Row (with_sent w c rows) =
  (Val tt,
   {| parser := set_Row (parser w)
                  (Some {| cap := cap c; sent := sent c ++ rows;
                           closed := true |});
      stdout := stdout w |}).
Proof. reflexivity. Qed.

(** X8.  In all-fields mode, with field names set, an open channel and a
    file without an empty line, [BufferRow] returns after it has sent, in
    the order of the file, exactly the rows (lines that do not start with
    [#] and have two bytes or more) that have as many tab-separated values
    as there are field names, each as the [Parse] function rewrites it, and
    has closed the channel; it prints nothing and changes nothing else. *)
Theorem BufferRow_all_fields_rows (fs : filesystem) (parseFunc : list Parse)
    (p : Parser) (c : chan) (names lines : list string)
    (out : list string) :
  allFields p = true ->
  fields p = Some names ->
  Row p = Some c ->
  closed c = false ->
  fs (filepath p) = Some lines ->
  Forall (fun line => line <> "") lines ->
  BufferRow fs parseFunc {| parser := p; stdout := out |} =
  (Val tt,
   {| parser :=
        set_Row p
          (Some {| cap := cap c;
                   sent := sent c ++
                           map (row_sent parseFunc names)
                               (filter (fits names) (rows_of lines));
                   closed := true |});
      stdout := out |}).
Proof.
  intros Hall Hnames HR Hopen Hfile Hlines.
  unfold BufferRow, bind at 1, get_p. cbv iota beta. cbn [parser].
  rewrite HR, Hnames, Hall. unfold bind at 1, ret. cbv iota beta.
  unfold os_Open. rewrite Hfile. cbv iota beta. unfold bind.
  rewrite (for_each_all_fields parseFunc names lines
             {| parser := p; stdout := out |} c Hall Hnames HR Hopen Hlines).
  apply close_with_sent.
Qed.

Lemma BufferRow_all_fields_rows_witness :
  BufferRow
    (one_file "conn.log"
       [ directive tab (tsv ["a"; "b"]); "#types"; "x";
         tsv ["1"; "2"]; tsv ["3"]; tsv ["4"; "5"; "6"]; tsv ["7"; "8"] ])
    [] (start (all_of "conn.log" (Some ["a"; "b"]) 0)) =
  (Val tt,
   {| parser := set_Row (all_of "conn.log" (Some ["a"; "b"]) 0)
                  (Some {| cap := 0;
                           sent := [["1"; "2"]; ["7"; "8"]];
                           closed := true |});
      stdout := [] |}).
Proof.
  apply (BufferRow_all_fields_rows _ [] (all_of "conn.log" (Some ["a"; "b"]) 0)
           (make_chan 0) ["a"; "b"]
           [ directive tab (tsv ["a"; "b"]); "#types"; "x";
             tsv ["1"; "2"]; tsv ["3"]; tsv ["4"; "5"; "6"]; tsv ["7"; "8"] ]
           []); try reflexivity.
  repeat constructor; discriminate.
Defined.

Lemma getIndex_in_range (header entry : list string) (x : string) :
  In x header ->
  (length header <= length entry)%nat ->
  in_range entry (fst (getIndex header x)).
Proof.
  intros Hx Hlen.
  destruct (getIndex_from_first 0 header x Hx) as (n & Hget & Hnth & _).
  unfold getIndex. rewrite Hget. cbn [fst]. unfold in_range.
  assert (n < length header)%nat
    by (apply nth_error_Some; rewrite Hnth; discriminate).
  lia.
Qed.

(** X9.  In selected-fields mode, on a parser whose indices are not yet
    resolved, with an open channel, a header that has every selected name
    and a file without an empty line whose rows have at least as many
    values as the header has names, [BufferRow] returns after it has sent
    one row per row of the file, in the order of the file: for each selected
    name, in the order of the selection, the value in the first column of
    that name (as the [Parse] function rewrites the row); and it has closed
    the channel. *)
Theorem BufferRow_selected_rows (fs : filesystem) (parseFunc : list Parse)
    (p : Parser) (c : chan) (header sel lines : list string)
    (out : list string) :
  allFields p = false ->
  fields p = Some sel ->
  fieldsIndex p = [] ->
  Row p = Some c ->
  closed c = false ->
  fs (filepath p) = Some lines ->
  ParseAllFields fs p = Val (header, None) ->
  Forall (fun x => In x header) sel ->
  Forall (fun line => line <> "") lines ->
  Forall (fun entry => (length header <= length entry)%nat) (rows_of lines) ->
  BufferRow fs parseFunc {| parser := p; stdout := out |} =
  (Val tt,
   {| parser :=
        {| allFields := false;
           fields := Some sel;
           fieldsIndex := map (fun x => fst (getIndex header x)) sel;
           filepath := filepath p;
           Row := Some {| cap := cap c;
                          sent := sent c ++
                            map (fun entry =>
                                   row_sent parseFunc sel
                                     (select_columns header sel entry))
                                (rows_of lines);
                          closed := true |} |};
      stdout := out |}).
Proof.
  intros Hmode Hfields Hix HR Hopen Hfile Hparse Hsel Hlines Hrows.
  unfold BufferRow, bind at 1, get_p. cbv iota beta. cbn [parser].
  rewrite HR, Hfields, Hmode. unfold bind at 1.
  unfold GetIndexOfFields, bind at 1, get_p. cbv iota beta. cbn [parser].
  unfold bind at 1, lift. rewrite Hparse. cbv iota beta. rewrite Hfields.
  rewrite (GetIndexOfFields_loop_map header sel _ Hsel).
  cbn [parser stdout]. rewrite Hix. cbn [app].
  unfold os_Open. rewrite Hfile. cbv iota beta. unfold bind.
  set (ix := map (fun x => fst (getIndex header x)) sel).
  rewrite (for_each_selected parseFunc lines
             {| parser := set_fieldsIndex p ix; stdout := out |} c);
    try assumption.
  - rewrite close_with_sent. cbn [parser stdout].
    unfold set_Row, set_fieldsIndex.
    cbn [allFields fields fieldsIndex filepath Row elems].
    rewrite Hmode, Hfields. cbn [elems]. f_equal. f_equal. f_equal. f_equal.
    f_equal. f_equal. apply map_ext_in. intros entry Hentry. f_equal.
    rewrite Forall_forall in Hrows. specialize (Hrows entry Hentry).
    pose proof (project_selected header sel entry Hsel Hrows) as Hspec.
    fold ix in Hspec. rewrite project_in_range in Hspec.
    + injection Hspec as Hspec. exact Hspec.
    + apply Forall_forall. intros i Hi. unfold ix in Hi.
      apply in_map_iff in Hi as (x & <- & Hx).
      rewrite Forall_forall in Hsel.
      apply getIndex_in_range; [apply Hsel; exact Hx | exact Hrows].
  - cbn [parser fieldsIndex set_fieldsIndex].
    apply Forall_forall. intros entry Hentry.
    rewrite Forall_forall in Hrows. specialize (Hrows entry Hentry).
    apply Forall_forall. intros i Hi. unfold ix in Hi.
    apply in_map_iff in Hi as (x & <- & Hx).
    rewrite Forall_forall in Hsel.
    apply getIndex_in_range; [apply Hsel; exact Hx | exact Hrows].
Qed.

Lemma BufferRow_selected_rows_witness :
  BufferRow (one_file "conn.log" abc_log) []
    (start (selected "conn.log" ["c"; "a"] 0)) =
  (Val tt,
   {| parser :=
        {| allFields := false; fields := Some ["c"; "a"];
           fieldsIndex := [2; 0]%Z; filepath := "conn.log";
           Row := Some {| cap := 0; sent := [["3"; "1"]; ["6"; "4"]];
                          closed := true |} |};
      stdout := [] |}).
Proof.
  apply (BufferRow_selected_rows (one_file "conn.log" abc_log) []
           (selected "conn.log" ["c"; "a"] 0) (make_chan 0)
           ["a"; "b"; "c"] ["c"; "a"] abc_log []); try reflexivity.
  - repeat apply Forall_cons; try apply Forall_nil; simpl; auto 10.
  - repeat constructor; discriminate.
  - repeat constructor; simpl; lia.
Defined.

(** ** What a run keeps *)

Lemma extends_refl (w : world) : extends w w.
Proof.
  unfold extends. repeat split; try reflexivity;
    try (exists []; rewrite app_nil_r; reflexivity); auto.
Qed.

Lemma extends_trans (w1 w2 w3 : world) :
  extends w1 w2 -> extends w2 w3 -> extends w1 w3.
Proof.
  intros (Ha & Hf & Hp & [ix Hix] & [rows Hrows] & [msgs Hmsgs] & HR)
         (Ha' & Hf' & Hp' & [ix' Hix'] & [rows' Hrows'] & [msgs' Hmsgs'] & HR').
  unfold extends. repeat split; try congruence.
  - exists (ix ++ ix'). rewrite Hix', Hix, app_assoc. reflexivity.
  - exists (rows ++ rows'). rewrite Hrows', Hrows, app_assoc. reflexivity.
  - exists (msgs ++ msgs'). rewrite Hmsgs', Hmsgs, app_assoc. reflexivity.
  - intros H. apply HR, HR', H.
  - intros H. apply HR', HR, H.
Qed.

Lemma bind_extends {A B : Type} (m : M A) (k : A -> M B) (w : world) :
  extends w (snd (m w)) ->
  (forall a w1, extends w1 (snd (k a w1))) ->
  extends w (snd (bind m k w)).
Proof.
  intros Hm Hk. unfold bind. destruct (m w) as [[a | r] w1]; simpl in Hm.
  - eapply extends_trans; [exact Hm | apply Hk].
  - exact Hm.
Qed.

Lemma fmt_Println_extends (msg : string) (w : world) :
  extends w (snd (fmt_Println msg w)).
Proof.
  unfold extends, fmt_Println. simpl. repeat split; try reflexivity;
    try (exists []; rewrite app_nil_r; reflexivity); auto.
  exists [msg]. reflexivity.
Qed.

Lemma send_Row_extends (row : list string) (w : world) :
  extends w (snd (send_Row row w)).
Proof.
  unfold send_Row, bind, get_p, lift, put_p, ret, chan_send. cbv iota beta.
  destruct (Row (parser w)) as [c |] eqn:HR; [| apply extends_refl].
  destruct (closed c); cbn [snd]; [apply extends_refl |].
  unfold extends, emitted. simpl. rewrite HR.
  repeat split; try reflexivity;
    try (exists []; rewrite app_nil_r; reflexivity); try discriminate.
  exists [row]. reflexivity.
Qed.

Lemma close_Row_extends (w : world) : extends w (snd (close_Row w)).
Proof.
  unfold close_Row, bind, get_p, lift, put_p, ret, chan_close. cbv iota beta.
  destruct (Row (parser w)) as [c |] eqn:HR; [| apply extends_refl].
  destruct (closed c); cbn [snd]; [apply extends_refl |].
  unfold extends, emitted. simpl. rewrite HR.
  repeat split; try reflexivity;
    try (exists []; rewrite app_nil_r; reflexivity); discriminate.
Qed.

Lemma push_row_extends (parseFunc : list Parse) (flds row : list string)
    (w : world) :
  extends w (snd (push_row parseFunc flds row w)).
Proof.
  unfold push_row. destruct parseFunc as [| f rest].
  - apply send_Row_extends.
  - destruct (f flds row) as [modified [e |]]; apply send_Row_extends.
Qed.

Lemma BufferRow_line_extends (parseFunc : list Parse) (line : string)
    (w : world) :
  extends w (snd (BufferRow_line parseFunc line w)).
Proof.
  unfold BufferRow_line.
  apply bind_extends; [apply extends_refl |]. intros c0 w1.
  destruct (Ascii.eqb c0 hash); [apply extends_refl |].
  apply bind_extends; [apply extends_refl |]. intros tail w2.
  destruct (String.eqb tail ""); [apply extends_refl |].
  apply bind_extends; [apply extends_refl |]. intros p w3.
  destruct (allFields p).
  - destruct (negb _); [apply extends_refl | apply push_row_extends].
  - apply bind_extends; [apply extends_refl |]. intros parsedEntry w4.
    apply push_row_extends.
Qed.

Lemma for_each_line_extends (parseFunc : list Parse) (lines : list string)
    (w : world) :
  extends w (snd (for_each (BufferRow_line parseFunc) lines w)).
Proof.
  revert w. induction lines as [| line lines IH]; intros w; cbn [for_each].
  - apply extends_refl.
  - apply bind_extends; [apply BufferRow_line_extends |]. intros _ w1.
    apply IH.
Qed.

Lemma GetIndexOfFields_loop_extends (all sel : list string) (w : world) :
  extends w (snd (GetIndexOfFields_loop all sel w)).
Proof.
  revert w. induction sel as [| x sel IH]; intros w;
    cbn [GetIndexOfFields_loop].
  - apply extends_refl.
  - destruct (getIndex all x) as [index [e |]]; [apply extends_refl |].
    unfold bind at 1, get_p. cbv iota beta.
    unfold bind at 1, put_p. cbv iota beta.
    eapply extends_trans; [| apply IH].
    unfold extends, emitted. simpl.
    repeat split; try reflexivity;
      try (exists []; rewrite app_nil_r; reflexivity); auto.
    exists [index]. reflexivity.
Qed.

Lemma GetIndexOfFields_extends (fs : filesystem) (w : world) :
  extends w (snd (GetIndexOfFields fs w)).
Proof.
  unfold GetIndexOfFields.
  apply bind_extends; [apply extends_refl |]. intros p w1.
  apply bind_extends; [apply extends_refl |]. intros [all [e |]] w2;
    [apply extends_refl |].
  destruct (fields p) as [sel |];
    [apply GetIndexOfFields_loop_extends | apply extends_refl].
Qed.

(** X10.  Whatever the file system, the [Parse] functions and the world, and
    whether it returns or panics, a run of [BufferRow] leaves the mode, the
    field names and the path of the parser as they were, only appends to the
    resolved indices, to the rows already sent on the channel and to the
    lines printed, and neither makes nor drops the channel. *)
Theorem BufferRow_extends (fs : filesystem) (parseFunc : list Parse)
    (w : world) :
  extends w (snd (BufferRow fs parseFunc w)).
Proof.
  unfold BufferRow.
  apply bind_extends; [apply extends_refl |]. intros p w1.
  destruct (Row p); [| apply fmt_Println_extends].
  destruct (fields p); [| apply fmt_Println_extends].
  apply bind_extends.
  - destruct (allFields p); [apply extends_refl | apply GetIndexOfFields_extends].
  - intros [e |] w2; [apply fmt_Println_extends |].
    destruct (os_Open fs (filepath p)) as [file [e |]];
      [apply fmt_Println_extends |].
    apply bind_extends; [apply for_each_line_extends |]. intros _ w3.
    apply close_Row_extends.
Qed.

(** ** The channel that is already closed *)

Lemma push_row_closed (parseFunc : list Parse) (flds row : list string)
    (w : world) (c : chan) :
  Row (parser w) = Some c -> closed c = true ->
  push_row parseFunc flds row w = (Panic SendOnClosedChannel, w).
Proof.
  intros HR Hclosed.
  assert (Hsend : forall r, send_Row r w = (Panic SendOnClosedChannel, w)).
  { intros r. unfold send_Row, bind, get_p, lift, chan_send. cbv iota beta.
    rewrite HR. cbv iota beta. rewrite Hclosed. reflexivity. }
  unfold push_row. destruct parseFunc as [| f rest]; [apply Hsend |].
  destruct (f flds row) as [modified [e |]]; apply Hsend.
Qed.

Lemma BufferRow_line_closed (parseFunc : list Parse) (line : string)
    (w : world) (c : chan) :
  Row (parser w) = Some c -> closed c = true ->
  snd (BufferRow_line parseFunc line w) = w.
Proof.
  intros HR Hclosed. unfold BufferRow_line, bind, lift, get_p, ret.
  destruct (byte_at line 0) as [c0 | r]; [| reflexivity].
  destruct (Ascii.eqb c0 hash); [reflexivity |].
  destruct (slice_from line 1) as [tail | r]; [| reflexivity].
  destruct (String.eqb tail ""); [reflexivity |].
  destruct (allFields (parser w)).
  - destruct (negb _); [reflexivity |].
    rewrite (push_row_closed _ _ _ w c HR Hclosed). reflexivity.
  - destruct (project _ _) as [parsedEntry | r]; [| reflexivity].
    rewrite (push_row_closed _ _ _ w c HR Hclosed). reflexivity.
Qed.

Lemma for_each_line_closed (parseFunc : list Parse) (lines : list string)
    (w : world) (c : chan) :
  Row (parser w) = Some c -> closed c = true ->
  snd (for_each (BufferRow_line parseFunc) lines w) = w.
Proof.
  intros HR Hclosed. induction lines as [| line lines IH]; cbn [for_each].
  - reflexivity.
  - unfold bind.
    pose proof (BufferRow_line_closed parseFunc line w c HR Hclosed) as Hw.
    destruct (BufferRow_line parseFunc line w) as [[[] | r] w1];
      simpl in Hw; subst w1; [exact IH | reflexivity].
Qed.

(** X11.  A run of [BufferRow] on a parser whose channel is already closed
    (a second run without [CreateBuffer]) sends nothing and leaves the
    channel as it is; it does not return in silence: either it panics, or it
    has printed the line of one of its early returns.  In all-fields mode
    with field names set and a file that opens it panics. *)
Theorem BufferRow_on_closed_channel (fs : filesystem)
    (parseFunc : list Parse) (w : world) (c : chan) :
  Row (parser w) = Some c ->
  closed c = true ->
  Row (parser (snd (BufferRow fs parseFunc w))) = Some c /\
  (fst (BufferRow fs parseFunc w) = Val tt ->
   stdout (snd (BufferRow fs parseFunc w)) <> stdout w) /\
  (allFields (parser w) = true -> fields (parser w) <> None ->
   fs (filepath (parser w)) <> None ->
   exists r, BufferRow fs parseFunc w = (Panic r, w)).
Proof.
  intros HR Hclosed.
  assert (Hscan : forall file w1,
            Row (parser w1) = Some c ->
            exists r,
              (for_each (BufferRow_line parseFunc) file ;;; close_Row) w1 =
              (Panic r, w1)).
  { intros file w1 HR1. unfold bind.
    pose proof (for_each_line_closed parseFunc file w1 c HR1 Hclosed) as Hw.
    destruct (for_each (BufferRow_line parseFunc) file w1) as [[[] | r] w2];
      simpl in Hw; subst w2.
    - exists CloseOfClosedChannel.
      unfold close_Row, bind, get_p, lift, chan_close. cbv iota beta.
      rewrite HR1. cbv iota beta. rewrite Hclosed. reflexivity.
    - exists r. reflexivity. }
  unfold bind in Hscan.
  pose proof (GetIndexOfFields_Row fs w) as [HRg Hsg].
  unfold BufferRow, bind, get_p, ret, fmt_Println. cbv iota beta. rewrite HR.
  destruct (fields (parser w)) as [names |].
  2:{ cbn [fst snd parser stdout].
      split; [exact HR |]. split; [intros _; apply snoc_neq |].
      intros _ Hf. contradiction. }
  unfold os_Open.
  destruct (allFields (parser w)).
  - destruct (fs (filepath (parser w))) as [file |]; cbv iota beta.
    + destruct (Hscan file w HR) as [r Hr]. rewrite Hr. cbn [fst snd].
      split; [exact HR |]. split; [discriminate |].
      intros _ _ _. exists r. reflexivity.
    + cbn [fst snd parser stdout].
      split; [exact HR |]. split; [intros _; apply snoc_neq |].
      intros _ _ Hopen. contradiction.
  - destruct (GetIndexOfFields fs w) as [[[e |] | r] w1];
      cbn [snd] in HRg, Hsg; rewrite HR in HRg; cbv iota beta.
    + cbn [fst snd parser stdout].
      split; [exact HRg |].
      split; [intros _; rewrite Hsg; apply snoc_neq | discriminate].
    + destruct (fs (filepath (parser w))) as [file |]; cbv iota beta.
      * destruct (Hscan file w1 HRg) as [r Hr]. rewrite Hr. cbn [fst snd].
        split; [exact HRg |]. split; discriminate.
      * cbn [fst snd parser stdout].
        split; [exact HRg |].
        split; [intros _; rewrite Hsg; apply snoc_neq | discriminate].
    + cbn [fst snd]. split; [exact HRg |]. split; discriminate.
Qed.

Lemma BufferRow_on_closed_channel_witness :
  let p := parser (snd (BufferRow (one_file "conn.log" abc_log) []
                          (start (all_of "conn.log" (Some ["a"; "b"; "c"]) 2)))) in
  exists r,
    BufferRow (one_file "conn.log" abc_log) [] (start p) =
    (Panic r, start p).
Proof.
  intros p.
  destruct (BufferRow_on_closed_channel (one_file "conn.log" abc_log) []
              (start p)
              {| cap := 2; sent := [["1"; "2"; "3"]; ["4"; "5"; "6"]];
                 closed := true |})
    as (_ & _ & Hpanic); try reflexivity.
  apply Hpanic; [reflexivity | discriminate | discriminate].
Defined.

(** ** [FieldsToUnderscore] *)

Lemma length_strings_Replace (s : string) (old new : ascii) :
  String.length (strings_Replace s old new) = String.length s.
Proof.
  induction s as [| c s IH]; cbn [strings_Replace String.length];
    [reflexivity | rewrite IH; reflexivity].
Qed.

Lemma strings_Replace_none_left (s : string) (old new : ascii) :
  old <> new -> bytes_Count (strings_Replace s old new) old = 0%Z.
Proof.
  intros Hne. induction s as [| c s IH]; cbn [strings_Replace bytes_Count].
  - reflexivity.
  - rewrite IH. destruct (Ascii.eqb_spec c old) as [Heq | Hc].
    + destruct (Ascii.eqb_spec new old) as [Heq' | _];
        [symmetry in Heq'; contradiction | reflexivity].
    + destruct (Ascii.eqb_spec c old) as [Heq | _];
        [contradiction | reflexivity].
Qed.

Lemma strings_Replace_absent (s : string) (old new : ascii) :
  bytes_Count s old = 0%Z -> strings_Replace s old new = s.
Proof.
  induction s as [| c s IH]; cbn [strings_Replace bytes_Count]; intros Hcount.
  - reflexivity.
  - pose proof (bytes_Count_nonneg s old) as Hpos.
    destruct (Ascii.eqb c old); [lia |].
    rewrite IH by lia. reflexivity.
Qed.

(** X12.  With field names set, [FieldsToUnderscore] returns a nil error and
    a slice with one name per field name, in the same order, each of the
    length of its field name and without a dot; a field name without a dot
    is returned as it is.  With no field names set it returns the error [No
    fields to replace] and no slice. *)
Theorem FieldsToUnderscore_no_dot (p : Parser) :
  (forall names,
     fields p = Some names ->
     exists out,
       FieldsToUnderscore p = (out, None) /\
       Forall2 (fun field s =>
                  String.length s = String.length field /\
                  bytes_Count s dot = 0%Z /\
                  (bytes_Count field dot = 0%Z -> s = field))
               names out) /\
  (fields p = None ->
   FieldsToUnderscore p = ([], Some (errors_New "No fields to replace"))).
Proof.
  unfold FieldsToUnderscore. split.
  - intros names Hnames. rewrite Hnames. eexists. split; [reflexivity |].
    clear Hnames. induction names as [| field names IH]; cbn [map];
      constructor; [| exact IH].
    split; [apply length_strings_Replace |].
    split; [apply strings_Replace_none_left; discriminate |].
    apply strings_Replace_absent.
  - intros Hunset. rewrite Hunset. reflexivity.
Qed.

Lemma FieldsToUnderscore_no_dot_witness :
  FieldsToUnderscore (selected "conn.log" ["id.orig_h"; "ts"; "a.b.c"] 0) =
  (["id_orig_h"; "ts"; "a_b_c"], None) /\
  FieldsToUnderscore (unset "conn.log" 0) =
  ([], Some (errors_New "No fields to replace")).
Proof.
  destruct (FieldsToUnderscore_no_dot
              (selected "conn.log" ["id.orig_h"; "ts"; "a.b.c"] 0))
    as [Hset _].
  destruct (FieldsToUnderscore_no_dot (unset "conn.log" 0)) as [_ Hunset].
  split.
  - destruct (Hset _ eq_refl) as (out & Hout & _). reflexivity.
  - apply Hunset. reflexivity.
Defined.



(** ** [CountLines] and [AutoCreateBuffer] *)

Lemma bytes_Count_app (s t : string) (sep : ascii) :
  bytes_Count (s ++ t) sep = (bytes_Count s sep + bytes_Count t sep)%Z.
Proof.
  induction s as [| c s IH]; cbn [append bytes_Count]; [lia |].
  rewrite IH. lia.
Qed.

Lemma CountLines_loop_content (r : reads) (count : Z) :
  CountLines_loop r count =
  ((count + bytes_Count (content r) newline)%Z, final r).
Proof.
  revert count.
  induction r as [| e | chunk rest IH]; intros count;
    cbn [CountLines_loop content final bytes_Count].
  - rewrite Z.add_0_r. reflexivity.
  - rewrite Z.add_0_r. reflexivity.
  - rewrite IH, bytes_Count_app, Z.add_assoc. reflexivity.
Qed.

(** X14.  For a file that opens, [CountLines] returns the number of newline
    bytes among the bytes that were read, whatever the chunks in which the
    reads delivered them, with a nil error when the reads ended at the end
    of the file and with the error of the failed read otherwise (the count
    is then that of the bytes read before it); the count is never
    negative.  For a file that does not open it returns [-1] and the
    error. *)
Theorem CountLines_counts_newlines (d : disk) (p : Parser) :
  (forall r,
     d (filepath p) = Some r ->
     CountLines d p = (bytes_Count (content r) newline, final r) /\
     (0 <= fst (CountLines d p))%Z) /\
  (d (filepath p) = None ->
   CountLines d p = ((-1)%Z, Some (PathError "open" (filepath p)))).
Proof.
  unfold CountLines. split.
  - intros r Hopen. rewrite Hopen, CountLines_loop_content. cbn [fst].
    rewrite Z.add_0_l. split; [reflexivity | apply bytes_Count_nonneg].
  - intros Hopen. rewrite Hopen. reflexivity.
Qed.

Lemma CountLines_counts_newlines_witness :
  let nl := String newline EmptyString in
  let d : disk := fun _ =>
    Some (Data ("#fields" ++ String tab "a" ++ nl ++ "1")%string
            (Data (nl ++ "2" ++ nl)%string EOF)) in
  CountLines d (selected "conn.log" ["a"] 0) = (3%Z, None).
Proof.
  intros nl d.
  destruct (CountLines_counts_newlines d (selected "conn.log" ["a"] 0))
    as [Hopen _].
  destruct (Hopen _ eq_refl) as [Hcount _]. rewrite Hcount. reflexivity.
Defined.

(** X15.  When [CountLines] succeeds, [AutoCreateBuffer] returns a nil error
    and gives the parser a new, open, empty channel whose capacity is the
    number of newline bytes of the file, never a negative one, and changes
    nothing else; when the file does not open or a read fails it returns
    the error and leaves the parser, the channel it had included, as it
    was. *)
Theorem AutoCreateBuffer_sizes (d : disk) (p : Parser) :
  (forall r,
     d (filepath p) = Some r -> final r = None ->
     AutoCreateBuffer d p =
     (set_Row p (Some {| cap := bytes_Count (content r) newline;
                         sent := []; closed := false |}), None) /\
     (0 <= bytes_Count (content r) newline)%Z) /\
  (forall r e,
     d (filepath p) = Some r -> final r = Some e ->
     AutoCreateBuffer d p = (p, Some e)) /\
  (d (filepath p) = None ->
   AutoCreateBuffer d p = (p, Some (PathError "open" (filepath p)))).
Proof.
  unfold AutoCreateBuffer, CountLines. split; [| split].
  - intros r Hopen Hfinal. rewrite Hopen, CountLines_loop_content, Hfinal.
    rewrite Z.add_0_l. split; [reflexivity | apply bytes_Count_nonneg].
  - intros r e Hopen Hfinal. rewrite Hopen, CountLines_loop_content, Hfinal.
    reflexivity.
  - intros Hopen. rewrite Hopen. reflexivity.
Qed.

Lemma AutoCreateBuffer_sizes_witness :
  let nl := String newline EmptyString in
  let d : disk := fun path =>
    if String.eqb path "conn.log"
    then Some (Data ("#fields" ++ String tab "a" ++ nl ++ "1")%string
                 (Data (nl ++ "2" ++ nl)%string EOF))
    else if String.eqb path "bad.log"
    then Some (Data ("1" ++ nl)%string (ReadError (errors_New "input/output error")))
    else None in
  AutoCreateBuffer d (selected "conn.log" ["a"] 7) =
    (selected "conn.log" ["a"] 3, None) /\
  AutoCreateBuffer d (selected "bad.log" ["a"] 7) =
    (selected "bad.log" ["a"] 7, Some (errors_New "input/output error")) /\
  AutoCreateBuffer d (selected "none.log" ["a"] 7) =
    (selected "none.log" ["a"] 7, Some (PathError "open" "none.log")).
Proof.
  intros nl d.
  destruct (AutoCreateBuffer_sizes d (selected "conn.log" ["a"] 7))
    as (Hok & _ & _).
  destruct (AutoCreateBuffer_sizes d (selected "bad.log" ["a"] 7))
    as (_ & Hbad & _).
  destruct (AutoCreateBuffer_sizes d (selected "none.log" ["a"] 7))
    as (_ & _ & Hnone).
  split; [| split].
  - destruct (Hok _ eq_refl eq_refl) as [Hrun _]. rewrite Hrun. reflexivity.
  - apply (Hbad _ _ eq_refl). reflexivity.
  - apply Hnone. reflexivity.
Defined.

(** ** As many rows as lines, at most *)

Lemma sent_at_most_refl (n : nat) (c : chan) (w : world) :
  Row (parser w) = Some c -> sent_at_most n c w.
Proof.
  intros HR. exists c, []. rewrite app_nil_r.
  repeat split; [exact HR | simpl; lia].
Qed.

Lemma sent_at_most_trans (n m : nat) (c c1 : chan) (w1 w2 : world) :
  sent_at_most n c w1 ->
  Row (parser w1) = Some c1 ->
  sent_at_most m c1 w2 ->
  sent_at_most (n + m) c w2.
Proof.
  intros (c1' & rows1 & HR1 & Hcap1 & Hsent1 & Hlen1) HR1'
         (c2 & rows2 & HR2 & Hcap2 & Hsent2 & Hlen2).
  rewrite HR1 in HR1'. injection HR1' as <-.
  exists c2, (rows1 ++ rows2).
  repeat split; [exact HR2 | congruence | |].
  - rewrite Hsent2, Hsent1, app_assoc. reflexivity.
  - rewrite length_app. lia.
Qed.

Lemma push_row_at_most (parseFunc : list Parse) (flds row : list string)
    (w : world) (c : chan) :
  Row (parser w) = Some c ->
  sent_at_most 1 c (snd (push_row parseFunc flds row w)).
Proof.
  intros HR. destruct (closed c) eqn:Hclosed.
  - rewrite (push_row_closed _ _ _ w c HR Hclosed).
    apply sent_at_most_refl. exact HR.
  - rewrite (push_row_sends _ _ _ w c HR Hclosed). cbn [snd].
    eexists _, [_]. repeat split; simpl; lia.
Qed.

Lemma BufferRow_line_at_most (parseFunc : list Parse) (line : string)
    (w : world) (c : chan) :
  Row (parser w) = Some c ->
  sent_at_most (if is_row line then 1 else 0) c
    (snd (BufferRow_line parseFunc line w)).
Proof.
  intros HR. destruct (is_row line) eqn:Hrow.
  - rewrite (BufferRow_line_row parseFunc line w Hrow).
    destruct (allFields (parser w)).
    + destruct (negb _); [apply sent_at_most_refl; exact HR |].
      apply push_row_at_most. exact HR.
    + unfold bind, lift.
      destruct (project _ _) as [parsedEntry | r];
        [apply push_row_at_most | apply sent_at_most_refl]; exact HR.
  - destruct line as [| ch tail].
    + apply sent_at_most_refl. exact HR.
    + rewrite (BufferRow_line_not_row parseFunc _ w);
        [apply sent_at_most_refl; exact HR | discriminate | exact Hrow].
Qed.

Lemma for_each_line_at_most (parseFunc : list Parse) (lines : list string)
    (w : world) (c : chan) :
  Row (parser w) = Some c ->
  sent_at_most (length (rows_of lines)) c
    (snd (for_each (BufferRow_line parseFunc) lines w)).
Proof.
  revert w c. induction lines as [| line lines IH]; intros w c HR.
  - apply sent_at_most_refl. exact HR.
  - cbn [for_each]. unfold bind.
    pose proof (BufferRow_line_at_most parseFunc line w c HR) as Hline.
    assert (Hlen : length (rows_of (line :: lines)) =
                   ((if is_row line then 1 else 0) +
                    length (rows_of lines))%nat).
    { unfold rows_of. cbn [filter]. destruct (is_row line); reflexivity. }
    rewrite Hlen.
    destruct (BufferRow_line parseFunc line w) as [[[] | r] w1];
      cbn [snd] in Hline |- *.
    + destruct Hline as (c1 & rows1 & HR1 & Hrest).
      eapply sent_at_most_trans;
        [exists c1, rows1; split; [exact HR1 | exact Hrest]
        | exact HR1 | apply IH; exact HR1].
    + destruct Hline as (c1 & rows1 & HR1 & Hcap1 & Hsent1 & Hlen1).
      exists c1, rows1. repeat split; try assumption. lia.
Qed.

Lemma close_Row_at_most (w : world) (c : chan) :
  Row (parser w) = Some c -> sent_at_most 0 c (snd (close_Row w)).
Proof.
  intros HR. unfold close_Row, bind, get_p, lift, put_p, chan_close.
  cbv iota beta. rewrite HR. cbv iota beta.
  destruct (closed c); cbn [snd].
  - apply sent_at_most_refl. exact HR.
  - eexists _, []. rewrite app_nil_r. repeat split. simpl. lia.
Qed.

(** The bound on a whole run, from the bound on the loop and on the
    close. *)
Lemma BufferRow_sent_at_most (fs : filesystem) (parseFunc : list Parse)
    (w : world) (c : chan) (lines : list string) :
  Row (parser w) = Some c ->
  fs (filepath (parser w)) = Some lines ->
  sent_at_most (length (rows_of lines)) c (snd (BufferRow fs parseFunc w)).
Proof.
  intros HR Hfile.
  pose proof (GetIndexOfFields_Row fs w) as [HRg _].
  unfold BufferRow, bind, get_p, ret, fmt_Println. cbv iota beta.
  rewrite HR. unfold os_Open. rewrite Hfile. cbv iota beta.
  assert (Hscan : forall w1,
            Row (parser w1) = Some c ->
            sent_at_most (length (rows_of lines)) c
              (snd (let (r, w2) :=
                      for_each (BufferRow_line parseFunc) lines w1 in
                    match r with
                    | Val _ => close_Row w2
                    | Panic r0 => (Panic r0, w2)
                    end))).
  { intros w1 HR1.
    pose proof (for_each_line_at_most parseFunc lines w1 c HR1) as Hloop.
    destruct (for_each (BufferRow_line parseFunc) lines w1)
      as [[[] | r] w2]; cbn [snd] in Hloop |- *; [| exact Hloop].
    destruct Hloop as (c2 & rows & HR2 & Hrest).
    rewrite <- (Nat.add_0_r (length (rows_of lines))).
    eapply sent_at_most_trans;
      [exists c2, rows; split; [exact HR2 | exact Hrest]
      | exact HR2 | apply close_Row_at_most; exact HR2]. }
  destruct (fields (parser w)) as [names |];
    [| apply sent_at_most_refl; exact HR].
  destruct (allFields (parser w)).
  - apply Hscan. exact HR.
  - destruct (GetIndexOfFields fs w) as [[[e |] | r] w1];
      cbn [snd] in HRg; rewrite HR in HRg; cbv iota beta.
    + apply sent_at_most_refl. exact HRg.
    + apply Hscan. exact HRg.
    + apply sent_at_most_refl. exact HRg.
Qed.

(** X16.  A run of [BufferRow] on a parser with a channel sends at most one
    row for each line of the file that is a row (first byte not [#], two
    bytes or more), whatever the mode, the [Parse] functions and the way
    the run ends, and keeps the capacity of the channel. *)
Theorem BufferRow_at_most_rows (fs : filesystem) (parseFunc : list Parse)
    (w : world) (c : chan) (lines : list string) :
  Row (parser w) = Some c ->
  fs (filepath (parser w)) = Some lines ->
  sent_at_most (length (rows_of lines)) c (snd (BufferRow fs parseFunc w)).
Proof.
  intros HR Hfile. apply BufferRow_sent_at_most; assumption.
Qed.

Lemma BufferRow_at_most_rows_witness :
  sent_at_most 2 (make_chan 5)
    (snd (BufferRow (one_file "conn.log" abc_log_blank) []
            (start (selected "conn.log" ["a"; "c"] 5)))).
Proof.
  apply (BufferRow_at_most_rows (one_file "conn.log" abc_log_blank) []
           (start (selected "conn.log" ["a"; "c"] 5)) (make_chan 5)
           abc_log_blank); reflexivity.
Defined.

(** ** The buffer that [AutoCreateBuffer] sizes *)

Lemma length_strings_Split_sep (s : string) (sep : ascii) :
  length (strings_Split s sep) = S (Z.to_nat (bytes_Count s sep)).
Proof.
  induction s as [| c s IH]; cbn [strings_Split bytes_Count].
  - reflexivity.
  - pose proof (bytes_Count_nonneg s sep) as Hpos.
    destruct (Ascii.eqb c sep).
    + cbn [length]. rewrite IH. lia.
    + destruct (strings_Split s sep) as [| x xs]; cbn [length] in *; lia.
Qed.

Lemma length_removelast_le {A : Type} (l : list A) :
  (length (removelast l) <= length l)%nat.
Proof.
  induction l as [| x l IH]; [simpl; lia |].
  cbn [removelast]. destruct l as [| y l]; [simpl; lia |].
  cbn [length] in *. lia.
Qed.

(** The scanner yields at most one line more than the file has newline
    bytes. *)
Lemma length_ScanLines (data : string) :
  (length (ScanLines data) <= S (Z.to_nat (bytes_Count data newline)))%nat.
Proof.
  unfold ScanLines. rewrite length_map.
  rewrite <- (length_strings_Split_sep data newline).
  destruct (String.eqb _ _); [apply length_removelast_le | lia].
Qed.

Lemma filter_length_lt {A : Type} (f : A -> bool) (l : list A) (x : A) :
  In x l -> f x = false -> (length (filter f l) < length l)%nat.
Proof.
  induction l as [| y l IH]; intros Hin Hfx; [destruct Hin |].
  cbn [filter]. destruct Hin as [-> | Hin].
  - rewrite Hfx. pose proof (filter_length_le f l). simpl. lia.
  - specialize (IH Hin Hfx). destruct (f y); simpl; lia.
Qed.

(** X17.  After [AutoCreateBuffer] on a file that is read to its end and has
    at least one line that is not a row (the [#fields] line, say), a run of
    [BufferRow] over the lines of that file never has more rows on the
    channel than the channel has room for: the producer can run to the end
    of the file before any row is received. *)
Theorem AutoCreateBuffer_room (d : disk) (fs : filesystem)
    (parseFunc : list Parse) (p : Parser) (r : reads) (out : list string) :
  d (filepath p) = Some r ->
  final r = None ->
  fs (filepath p) = Some (ScanLines (content r)) ->
  (exists line, In line (ScanLines (content r)) /\ is_row line = false) ->
  exists c',
    Row (parser (snd (BufferRow fs parseFunc
                        {| parser := fst (AutoCreateBuffer d p);
                           stdout := out |}))) = Some c' /\
    (Z.of_nat (length (sent c')) <= cap c')%Z.
Proof.
  intros Hopen Hfinal Hlines (line & Hin & Hrow).
  unfold AutoCreateBuffer, CountLines.
  rewrite Hopen, CountLines_loop_content, Hfinal, Z.add_0_l. cbn [fst].
  destruct (BufferRow_sent_at_most fs parseFunc
              {| parser := CreateBuffer p (bytes_Count (content r) newline);
                 stdout := out |}
              (make_chan (bytes_Count (content r) newline))
              (ScanLines (content r)) eq_refl Hlines)
    as (c' & rows & HR & Hcap & Hsent & Hlen).
  exists c'. split; [exact HR |].
  rewrite Hcap, Hsent. cbn [make_chan cap sent app].
  pose proof (length_ScanLines (content r)) as Hscan.
  pose proof (filter_length_lt is_row _ line Hin Hrow) as Hfilter.
  pose proof (bytes_Count_nonneg (content r) newline) as Hpos.
  unfold rows_of in Hlen. rewrite length_map in Hlen. lia.
Qed.

Lemma AutoCreateBuffer_room_witness :
  let nl := String newline EmptyString in
  let r := Data ("#fields" ++ String tab "a" ++ nl ++ "10")%string
             (Data (nl ++ "20")%string EOF) in
  exists c',
    Row (parser (snd (BufferRow
                        (fun _ => Some (ScanLines (content r))) []
                        {| parser :=
                             fst (AutoCreateBuffer (fun _ => Some r)
                                    (selected "conn.log" ["a"] 0));
                           stdout := [] |}))) = Some c' /\
    (Z.of_nat (length (sent c')) <= cap c')%Z.
Proof.
  intros nl r.
  apply (AutoCreateBuffer_room (fun _ => Some r)
           (fun _ => Some (ScanLines (content r))) []
           (selected "conn.log" ["a"] 0) r []).
  - reflexivity.
  - reflexivity.
  - reflexivity.
  - exists ("#fields" ++ String tab "a")%string.
    split; [vm_compute; left; reflexivity | reflexivity].
Defined.

(** ** When the channel is closed *)

Lemma push_row_open (parseFunc : list Parse) (flds row : list string)
    (w : world) (c : chan) :
  Row (parser w) = Some c -> closed c = false ->
  exists c', Row (parser (snd (push_row parseFunc flds row w))) = Some c' /\
             closed c' = false.
Proof.
  intros HR Hopen. rewrite (push_row_sends _ _ _ w c HR Hopen).
  eexists. split; reflexivity.
Qed.

Lemma BufferRow_line_open (parseFunc : list Parse) (line : string)
    (w : world) (c : chan) :
  Row (parser w) = Some c -> closed c = false ->
  exists c', Row (parser (snd (BufferRow_line parseFunc line w))) = Some c' /\
             closed c' = false.
Proof.
  intros HR Hopen. unfold BufferRow_line, bind, lift, get_p, ret.
  destruct (byte_at line 0) as [c0 | r]; [| exists c; split; assumption].
  destruct (Ascii.eqb c0 hash); [exists c; split; assumption |].
  destruct (slice_from line 1) as [tail | r]; [| exists c; split; assumption].
  destruct (String.eqb tail ""); [exists c; split; assumption |].
  destruct (allFields (parser w)).
  - destruct (negb _); [exists c; split; assumption |].
    apply (push_row_open _ _ _ w c HR Hopen).
  - destruct (project _ _) as [parsedEntry | r];
      [| exists c; split; assumption].
    apply (push_row_open _ _ _ w c HR Hopen).
Qed.

Lemma for_each_line_open (parseFunc : list Parse) (lines : list string)
    (w : world) (c : chan) :
  Row (parser w) = Some c -> closed c = false ->
  exists c',
    Row (parser (snd (for_each (BufferRow_line parseFunc) lines w))) =
      Some c' /\
    closed c' = false.
Proof.
  revert w c. induction lines as [| line lines IH]; intros w c HR Hopen;
    cbn [for_each].
  - exists c. split; assumption.
  - unfold bind.
    destruct (BufferRow_line_open parseFunc line w c HR Hopen)
      as (c1 & HR1 & Hopen1).
    destruct (BufferRow_line parseFunc line w) as [[[] | r] w1];
      cbn [snd] in HR1 |- *.
    + apply (IH w1 c1 HR1 Hopen1).
    + exists c1. split; assumption.
Qed.

(** X18.  On a parser with an open channel, the channel is closed at the end
    of a run of [BufferRow] exactly when the run returned without having
    printed anything: a run that panics and a run that takes one of the
    early returns (each prints one line) leave the channel open, and no
    consumer is told that the rows have ended. *)
Theorem BufferRow_closes_iff (fs : filesystem) (parseFunc : list Parse)
    (w : world) (c : chan) :
  Row (parser w) = Some c ->
  closed c = false ->
  (is_closed (parser (snd (BufferRow fs parseFunc w))) = true <->
   fst (BufferRow fs parseFunc w) = Val tt /\
   stdout (snd (BufferRow fs parseFunc w)) = stdout w).
Proof.
  intros HR Hopen. split.
  2:{ intros [Hval Hout].
      apply (BufferRow_silent_return_closed fs parseFunc w
               (snd (BufferRow fs parseFunc w)));
        [rewrite HR; discriminate | | exact Hout].
      destruct (BufferRow fs parseFunc w) as [res w']. cbn [fst snd] in *.
      rewrite Hval. reflexivity. }
  assert (Hscan : forall file w1,
            Row (parser w1) = Some c -> stdout w1 = stdout w ->
            is_closed (parser (snd
              (let (r, w2) := for_each (BufferRow_line parseFunc) file w1 in
               match r with
               | Val _ => close_Row w2
               | Panic r0 => (Panic r0, w2)
               end))) = true ->
            fst (let (r, w2) := for_each (BufferRow_line parseFunc) file w1 in
                 match r with
                 | Val _ => close_Row w2
                 | Panic r0 => (Panic r0, w2)
                 end) = Val tt /\
            stdout (snd
              (let (r, w2) := for_each (BufferRow_line parseFunc) file w1 in
               match r with
               | Val _ => close_Row w2
               | Panic r0 => (Panic r0, w2)
               end)) = stdout w).
  { intros file w1 HR1 Hout1.
    destruct (for_each_line_open parseFunc file w1 c HR1 Hopen)
      as (c2 & HR2 & Hopen2).
    pose proof (for_each_line_config parseFunc file w1) as [_ Hout2].
    destruct (for_each (BufferRow_line parseFunc) file w1) as [[[] | r] w2];
      cbn [snd] in HR2, Hout2.
    - unfold close_Row, bind, get_p, lift, put_p, chan_close.
      cbv iota beta. rewrite HR2. cbv iota beta. rewrite Hopen2.
      cbn [fst snd stdout]. intros _. split; [reflexivity | congruence].
    - cbn [fst snd]. unfold is_closed. rewrite HR2, Hopen2. discriminate. }
  pose proof (GetIndexOfFields_Row fs w) as [HRg Hsg].
  unfold BufferRow, bind, get_p, ret, fmt_Println. cbv iota beta. rewrite HR.
  assert (Hstill : is_closed (parser w) = true -> False)
    by (unfold is_closed; rewrite HR, Hopen; discriminate).
  destruct (fields (parser w)) as [names |];
    [| cbn [fst snd parser]; intros H; destruct (Hstill H)].
  destruct (allFields (parser w)).
  - destruct (os_Open fs (filepath (parser w))) as [file [e |]].
    + cbn [fst snd parser]. intros H. destruct (Hstill H).
    + apply Hscan; [exact HR | reflexivity].
  - destruct (GetIndexOfFields fs w) as [[[e |] | r] w1];
      cbn [snd] in HRg, Hsg; rewrite HR in HRg; cbv iota beta.
    + cbn [fst snd parser]. unfold is_closed. rewrite HRg, Hopen.
      discriminate.
    + destruct (os_Open fs (filepath (parser w))) as [file [e |]].
      * cbn [fst snd parser]. unfold is_closed. rewrite HRg, Hopen.
        discriminate.
      * apply Hscan; assumption.
    + cbn [fst snd]. unfold is_closed. rewrite HRg, Hopen. discriminate.
Qed.

Lemma BufferRow_closes_iff_witness :
  is_closed (parser (snd (BufferRow (one_file "conn.log" abc_log) []
                            (start (selected "conn.log" ["a"] 0))))) = true /\
  is_closed (parser (snd (BufferRow (one_file "conn.log" abc_log_blank) []
                            (start (selected "conn.log" ["a"] 0))))) <> true.
Proof.
  split.
  - apply (BufferRow_closes_iff (one_file "conn.log" abc_log) []
             (start (selected "conn.log" ["a"] 0)) (make_chan 0));
      try reflexivity.
    split; reflexivity.
  - intros Hclosed.
    apply (BufferRow_closes_iff (one_file "conn.log" abc_log_blank) []
             (start (selected "conn.log" ["a"] 0)) (make_chan 0))
      in Hclosed; try reflexivity.
    destruct Hclosed as [Hval _]. discriminate.
Defined.

(** ** [GetIndexOfFields] and the name that is missing *)

(** X19.  When the header lacks a selected name, [GetIndexOfFields] returns
    the error that ends with the first such name of the selection; the
    names after it are not looked at, and one index for each name before it
    has been appended to the resolved indices, which the failed call leaves
    in the parser. *)
Theorem GetIndexOfFields_first_unmatched (fs : filesystem) (w : world)
    (header pre : list string) (z : string) (post : list string) :
  ParseAllFields fs (parser w) = Val (header, None) ->
  fields (parser w) = Some (pre ++ z :: post) ->
  Forall (fun x => In x header) pre ->
  ~ In z header ->
  exists ix,
    length ix = length pre /\
    GetIndexOfFields fs w =
    (Val (Some (NotFound z)),
     {| parser := set_fieldsIndex (parser w) (fieldsIndex (parser w) ++ ix);
        stdout := stdout w |}).
Proof.
  intros Hparse Hfields Hpre Hz.
  destruct (GetIndexOfFields_loop_NotFound header pre z post w Hpre Hz)
    as (ix & Hlen & Hrun).
  exists ix. split; [exact Hlen |].
  unfold GetIndexOfFields, bind, get_p, lift. cbv iota beta.
  rewrite Hparse. cbv iota beta. rewrite Hfields. exact Hrun.
Qed.

Lemma GetIndexOfFields_first_unmatched_witness :
  exists ix,
    length ix = 1%nat /\
    GetIndexOfFields (one_file "conn.log" abc_log)
      (start (selected "conn.log" (["b"] ++ "z" :: ["y"; "a"]) 0)) =
    (Val (Some (NotFound "z")),
     {| parser :=
          set_fieldsIndex (selected "conn.log" (["b"] ++ "z" :: ["y"; "a"]) 0)
            ([] ++ ix);
        stdout := [] |}).
Proof.
  apply (GetIndexOfFields_first_unmatched (one_file "conn.log" abc_log)
           (start (selected "conn.log" (["b"] ++ "z" :: ["y"; "a"]) 0))
           ["a"; "b"; "c"] ["b"] "z" ["y"; "a"]).
  - vm_compute. reflexivity.
  - reflexivity.
  - repeat apply Forall_cons; try apply Forall_nil; simpl; auto 10.
  - simpl. intros [H | [H | [H | H]]]; try discriminate; exact H.
Defined.

(** ** Running twice in all-fields mode *)

(** X20.  In all-fields mode a second run of [BufferRow], after
    [CreateBuffer] has given the parser a new channel of the same size, is
    the first run again: the same outcome, the same rows in the same order,
    the same state of the parser. *)
Theorem BufferRow_all_fields_idempotent (fs : filesystem)
    (parseFunc : list Parse) (p : Parser) (size : Z) :
  allFields p = true ->
  BufferRow fs parseFunc
    (start (CreateBuffer
              (parser (snd (BufferRow fs parseFunc
                              (start (CreateBuffer p size))))) size)) =
  BufferRow fs parseFunc (start (CreateBuffer p size)).
Proof.
  intros Hall. apply BufferRow_all_fields_again. exact Hall.
Qed.

Lemma BufferRow_all_fields_idempotent_witness :
  emitted (parser (snd (BufferRow (one_file "conn.log" abc_log) []
    (start (CreateBuffer
              (parser (snd (BufferRow (one_file "conn.log" abc_log) []
                 (start (CreateBuffer
                           (all_of "conn.log" (Some ["a"; "b"; "c"]) 9) 2)))))
              2))))) =
  [["1"; "2"; "3"]; ["4"; "5"; "6"]].
Proof.
  rewrite (BufferRow_all_fields_idempotent (one_file "conn.log" abc_log) []
             (all_of "conn.log" (Some ["a"; "b"; "c"]) 9) 2).
  - reflexivity.
  - reflexivity.
Defined.
